(** * A directory checksum tool: walker, per-file workers and their interleavings

    The program under study is the [main] package of the checksum tool: it
    parses two flags ([dest], [sign]), walks the directory tree below [dest]
    with [filepath.Walk], and starts one goroutine running [checksumWorker]
    for every entry that is not a directory.  The worker selects a digest
    function from [sign], applies it to the file and prints the result. *)

From Stdlib Require Import ZArith Lia.
From stdpp Require Import base option list strings.

Local Open Scope string_scope.
Local Open Scope list_scope.
Set Warnings "-register-all,-notation-for-abbreviation".

(** ** Go values used by the program *)

(** A non-nil Go [error].  The nil error is [None : option error].
    [SkipDir] and [SkipAll] are the two sentinel values of [path/filepath];
    every other error is identified with its message, the only thing the
    program observes of it (through [%v], [%s] and [Error()]). *)
Inductive error : Type :=
| SkipDir
| SkipAll
| errorString (msg : string).

Definition Error (e : error) : string :=
  match e with
  | SkipDir => "skip this directory"
  | SkipAll => "skip everything and stop the walk"
  | errorString msg => msg
  end.

(** [errors.New] *)
Definition errors_New (msg : string) : error := errorString msg.

(** The line feed written by ["\n"] in a Go format string. *)
Definition LF : string := String (Ascii.ascii_of_nat 10) EmptyString.

(** File kinds as [os.FileMode] type bits distinguish them. *)
Inductive FileMode : Type :=
| ModeRegular
| ModeDir
| ModeSymlink
| ModeNamedPipe
| ModeSocket
| ModeDevice
| ModeCharDevice.

(** [os.FileInfo], reduced to what [Lstat] reports and the program reads. *)
Record FileInfo : Type := { Name : string; Mode : FileMode }.

Definition IsDir (info : FileInfo) : bool :=
  match Mode info with
  | ModeDir => true
  | _ => false
  end.

(** ** The file system seen by [filepath.Walk] *)

(** What can sit under a name that is not a directory. *)
Inductive kind : Type :=
| Regular
| Symlink
| NamedPipe
| Socket
| Device
| CharDevice.

Definition mode_of_kind (k : kind) : FileMode :=
  match k with
  | Regular => ModeRegular
  | Symlink => ModeSymlink
  | NamedPipe => ModeNamedPipe
  | Socket => ModeSocket
  | Device => ModeDevice
  | CharDevice => ModeCharDevice
  end.

(** A tree as [Lstat] and [Readdirnames] answer for it during one walk.
    - [File n k]: [Lstat] succeeds and reports a non-directory of kind [k]
      ([Lstat] does not follow symbolic links);
    - [Directory n rerr children]: [Lstat] succeeds and reports a directory;
      reading its names fails with [rerr] when that is not nil, and yields
      [children] otherwise, in the order the walk takes them (sorted by
      name);
    - [Missing n err]: [Lstat] fails with [err] (the root does not exist, or
      the name disappeared between the listing and the [Lstat]). *)
Inductive entry : Type :=
| File (name : string) (k : kind)
| Directory (name : string) (rerr : option error) (children : list entry)
| Missing (name : string) (err : error).

Definition entry_name (e : entry) : string :=
  match e with
  | File n _ | Directory n _ _ | Missing n _ => n
  end.

(** The result of [Lstat] on an entry: the file info, nil when it fails. *)
Definition lstat (e : entry) : option FileInfo * option error :=
  match e with
  | File n k => (Some {| Name := n; Mode := mode_of_kind k |}, None)
  | Directory n _ _ => (Some {| Name := n; Mode := ModeDir |}, None)
  | Missing _ err => (None, Some err)
  end.

(** [filepath.Join] on a clean directory path and a base name. *)
Definition Join (dir name : string) : string := dir +:+ "/" +:+ name.

(** ** Effects of one goroutine *)

(** What a goroutine of this program does to the outside: it starts a
    goroutine running [checksumWorker] on a path, or writes to standard
    output. *)
Inductive effect : Type :=
| Go (filePath : string)
| Printf (text : string).

(** A call returns normally or panics. *)
Inductive result (A : Type) : Type :=
| Normal (a : A)
| Panic (msg : string).
Arguments Normal {A} a.
Arguments Panic {A} msg.

(** Sequential code: the effects performed so far are threaded through, in
    program order, and a panic stops the computation. *)
Definition M (A : Type) : Type := list effect -> result A * list effect.

Definition ret {A} (a : A) : M A := fun tr => (Normal a, tr).

Definition bind {A B} (m : M A) (k : A -> M B) : M B :=
  fun tr =>
    match m tr with
    | (Normal a, tr') => k a tr'
    | (Panic msg, tr') => (Panic msg, tr')
    end.

Definition perform (e : effect) : M unit := fun tr => (Normal tt, tr ++ [e]).

Definition panic {A} (msg : string) : M A := fun tr => (Panic msg, tr).

Notation "x <- m ;; k" := (bind m (fun x => k))
  (at level 99, m at next level, right associativity).
Notation "m ;;; k" := (bind m (fun _ => k))
  (at level 99, right associativity).

(** The run-time error of a method call on a nil interface value. *)
Definition nil_dereference : string :=
  "runtime error: invalid memory address or nil pointer dereference".

(** ** [filepath.Walk] *)

Definition WalkFunc : Type :=
  string -> option FileInfo -> option error -> M (option error).

Definition is_SkipDir (e : error) : bool :=
  match e with SkipDir => true | _ => false end.

Definition is_directory (e : entry) : bool :=
  match e with Directory _ _ _ => true | _ => false end.

(** [walk] of [path/filepath]: a non-directory is handed to the callback; a
    directory is listed, handed to the callback together with the listing
    error, and then its names are visited in order.  An entry whose [Lstat]
    fails is handed to the callback with a nil file info. *)
Fixpoint walk (path : string) (e : entry) (walkFn : WalkFunc) {struct e}
  : M (option error) :=
  match e with
  | File _ _ => walkFn path (fst (lstat e)) None
  | Missing _ err => walkFn path None (Some err)
  | Directory _ rerr children =>
      err1 <- walkFn path (fst (lstat e)) rerr ;;
      if is_Some_dec rerr then ret err1
      else if is_Some_dec err1 then ret err1
      else
        (fix visit (names : list entry) : M (option error) :=
           match names with
           | [] => ret None
           | c :: rest =>
               let filename := Join path (entry_name c) in
               match c with
               | Missing _ lerr =>
                   err <- walkFn filename None (Some lerr) ;;
                   match err with
                   | Some e' => if is_SkipDir e' then visit rest else ret (Some e')
                   | None => visit rest
                   end
               | _ =>
                   err <- walk filename c walkFn ;;
                   match err with
                   | Some e' =>
                       if negb (is_directory c) || negb (is_SkipDir e')
                       then ret (Some e')
                       else visit rest
                   | None => visit rest
                   end
               end
           end) children
  end.

(** [filepath.Walk root fn], where [fsys] is what the file system holds at
    [root]. *)
Definition Walk (root : string) (fsys : entry) (fn : WalkFunc) : M (option error) :=
  err <- match fsys with
         | Missing _ lerr => fn root None (Some lerr)
         | _ => walk root fsys fn
         end ;;
  match err with
  | Some SkipDir | Some SkipAll => ret None
  | _ => ret err
  end.

(** ** The program *)

(** A digest function of the package: from a path to digest string and error. *)
Definition hashfn : Type := string -> string * option error.

Section Checksum.

(** The three digest functions of the package, declared in another file. *)
Variables FileCrc32 FileMd5Sum FileSha256 : hashfn.

(** The flag [-sign], read after [flag.Parse]. *)
Variable sign : string.

(** The [switch *sign] of [checksumWorker]: the selected digest function,
    or the error returned by the [default] branch. *)
Definition select_filehash : hashfn + error :=
  if String.eqb sign "crc" then inl FileCrc32
  else if String.eqb sign "md5" then inl FileMd5Sum
  else if String.eqb sign "sha256" then inl FileSha256
  else inr (errors_New "Algorithm not supported.").

(** The rest of [checksumWorker], once [filehash] is chosen. *)
Definition hash_and_report (filehash : hashfn) (filePath : string)
  : M (option error) :=
  let '(cs, err) := filehash filePath in
  match err with
  | Some e =>
      perform (Printf ("Error: " +:+ Error e)) ;;;
      ret (Some e)
  | None =>
      perform (Printf (filePath +:+ " :: " +:+ cs +:+ LF)) ;;;
      ret None
  end.

(** What [hash_and_report] writes: the success line, or the error. *)
Definition report (filehash : hashfn) (filePath : string) : string :=
  match filehash filePath with
  | (_, Some e) => "Error: " +:+ Error e
  | (cs, None) => filePath +:+ " :: " +:+ cs +:+ LF
  end.

Definition checksumWorker (filePath : string) : M (option error) :=
  match select_filehash with
  | inr err => ret (Some err)
  | inl filehash => hash_and_report filehash filePath
  end.

End Checksum.

(** The callback given to [filepath.Walk].  [info.IsDir()] is a method call
    on an interface value: it panics when [info] is nil.  The argument [err]
    is not read. *)
Definition walkWith (path : string) (info : option FileInfo) (err : option error)
  : M (option error) :=
  match info with
  | None => panic nil_dereference
  | Some fi =>
      if IsDir fi then ret None
      else perform (Go path) ;;; ret None
  end.

(** [main], after [flag.Parse] has set [dest]; [fsys] is the tree at [dest]. *)
Definition main (dest : string) (fsys : entry) : M unit :=
  err <- Walk dest fsys walkWith ;;
  match err with
  | Some e => perform (Printf ("Error : " +:+ Error e))
  | None => ret tt
  end.

(** ** The process: the main goroutine and the workers it starts *)

(** Where a worker goroutine stands in [checksumWorker]: not yet run, inside
    the call [filehash(filePath)] with the selected function, or returned. *)
Inductive pc : Type :=
| Spawned
| Hashing (filehash : hashfn)
| Returned (err : option error).

Record goroutine : Type := { g_path : string; g_pc : pc }.

(** A write to standard output and its author: [None] is the main goroutine,
    [Some i] the worker started by the [i]-th [go] statement. *)
Record write : Type := { w_by : option nat; w_text : string }.

(** The state of a run.  The main goroutine's behaviour depends on nothing
    the workers do, so it is held as the effects it has still to perform
    ([main_todo], in program order) and the way its call ends ([main_end]).
    [exited] is the exit status once the process is over. *)
Record process : Type := {
  main_todo : list effect;
  main_end : result unit;
  workers : list goroutine;
  stdout : list write;
  exited : option Z
}.

(** The process as the Go runtime starts it. *)
Definition start (dest : string) (fsys : entry) : process :=
  let '(r, effs) := main dest fsys [] in
  {| main_todo := effs; main_end := r; workers := []; stdout := []; exited := None |}.

(** Exit status of a Go program: 0 when [main] returns, 2 when a goroutine
    panics. *)
Definition exit_status {A} (r : result A) : Z :=
  match r with
  | Normal _ => 0
  | Panic _ => 2
  end.

Definition set_worker (i : nat) (st : pc) (s : process) : process :=
  match workers s !! i with
  | Some g =>
      {| main_todo := main_todo s; main_end := main_end s;
         workers := <[i := {| g_path := g_path g; g_pc := st |}]> (workers s);
         stdout := stdout s; exited := exited s |}
  | None => s
  end.

Definition emit (by_ : option nat) (e : effect) (s : process) : process :=
  match e with
  | Go p =>
      {| main_todo := main_todo s; main_end := main_end s;
         workers := workers s ++ [{| g_path := p; g_pc := Spawned |}];
         stdout := stdout s; exited := exited s |}
  | Printf t =>
      {| main_todo := main_todo s; main_end := main_end s;
         workers := workers s;
         stdout := stdout s ++ [{| w_by := by_; w_text := t |}];
         exited := exited s |}
  end.

Definition emit_all (by_ : option nat) (effs : list effect) (s : process) : process :=
  foldl (fun s e => emit by_ e s) s effs.

Definition exit_with (code : Z) (s : process) : process :=
  {| main_todo := main_todo s; main_end := main_end s; workers := workers s;
     stdout := stdout s; exited := Some code |}.

Definition pop_main (s : process) : process :=
  {| main_todo := tail (main_todo s); main_end := main_end s; workers := workers s;
     stdout := stdout s; exited := exited s |}.

(** The scheduler picks the main goroutine or the [i]-th worker. *)
Inductive choice : Type :=
| RunMain
| RunWorker (i : nat).

Section Run.

Variables FileCrc32 FileMd5Sum FileSha256 : hashfn.
Variable sign : string.

(** One scheduling step.  Nothing runs once the process has exited.
    - The main goroutine performs its next effect; when none is left its
      call is over and the process exits, without waiting for the workers.
    - A worker that has not run evaluates the [switch]: it enters the call
      of the selected digest function, or returns the [default] error.
    - A worker inside the digest call completes it, prints and returns.
    - A worker that has returned cannot be scheduled. *)
Definition step (c : choice) (s : process) : option process :=
  match exited s with
  | Some _ => None
  | None =>
      match c with
      | RunMain =>
          match main_todo s with
          | e :: _ => Some (emit None e (pop_main s))
          | [] => Some (exit_with (exit_status (main_end s)) s)
          end
      | RunWorker i =>
          match workers s !! i with
          | None => None
          | Some g =>
              match g_pc g with
              | Spawned =>
                  match select_filehash FileCrc32 FileMd5Sum FileSha256 sign with
                  | inl filehash => Some (set_worker i (Hashing filehash) s)
                  | inr err => Some (set_worker i (Returned (Some err)) s)
                  end
              | Hashing filehash =>
                  match hash_and_report filehash (g_path g) [] with
                  | (Normal err, effs) =>
                      Some (set_worker i (Returned err) (emit_all (Some i) effs s))
                  | (Panic _, effs) =>
                      Some (exit_with 2 (emit_all (Some i) effs s))
                  end
              | Returned _ => None
              end
          end
      end
  end.

(** Running a schedule; [None] when it asks for a step that cannot be taken. *)
Fixpoint exec (sched : list choice) (s : process) : option process :=
  match sched with
  | [] => Some s
  | c :: sched' =>
      match step c s with
      | Some s' => exec sched' s'
      | None => None
      end
  end.

(** The states a run from [s0] can be in. *)
Definition reachable (s0 s : process) : Prop :=
  exists sched, exec sched s0 = Some s.

(** The same steps as a relation, one rule per case of [step]. *)
Inductive transition : process -> process -> Prop :=
| main_effect s e rest :
    exited s = None ->
    main_todo s = e :: rest ->
    transition s (emit None e (pop_main s))
| main_returns s :
    exited s = None ->
    main_todo s = [] ->
    transition s (exit_with (exit_status (main_end s)) s)
| worker_selects s i g filehash :
    exited s = None ->
    workers s !! i = Some g ->
    g_pc g = Spawned ->
    select_filehash FileCrc32 FileMd5Sum FileSha256 sign = inl filehash ->
    transition s (set_worker i (Hashing filehash) s)
| worker_rejects s i g err :
    exited s = None ->
    workers s !! i = Some g ->
    g_pc g = Spawned ->
    select_filehash FileCrc32 FileMd5Sum FileSha256 sign = inr err ->
    transition s (set_worker i (Returned (Some err)) s)
| worker_reports s i g filehash :
    exited s = None ->
    workers s !! i = Some g ->
    g_pc g = Hashing filehash ->
    transition s
      (set_worker i (Returned (snd (filehash (g_path g))))
         (emit (Some i) (Printf (report filehash (g_path g))) s)).

End Run.

(** ** Observations on a state *)

Definition is_hashing (g : goroutine) : bool :=
  match g_pc g with Hashing _ => true | _ => false end.

Definition has_returned (g : goroutine) : bool :=
  match g_pc g with Returned _ => true | _ => false end.

(** Digest computations in flight. *)
Definition hashing_count (s : process) : nat :=
  length (filter (fun g => is_hashing g = true) (workers s)).

(** The paths handed to [go checksumWorker(path)], in order. *)
Fixpoint tasks (effs : list effect) : list string :=
  match effs with
  | [] => []
  | Go p :: effs' => p :: tasks effs'
  | Printf _ :: effs' => tasks effs'
  end.

(** Writes made by workers, in the order they reached standard output. *)
Definition worker_writes (s : process) : list write :=
  filter (fun w => is_Some (w_by w)) (stdout s).

(** Two states that differ at most in worker [i] and in what it wrote. *)
Definition others_agree (i : nat) (s s' : process) : Prop :=
  main_todo s' = main_todo s
  /\ main_end s' = main_end s
  /\ exited s' = exited s
  /\ length (workers s') = length (workers s)
  /\ (forall j, j <> i -> workers s' !! j = workers s !! j)
  /\ filter (fun w => w_by w <> Some i) (stdout s')
     = filter (fun w => w_by w <> Some i) (stdout s).

(** The text on standard output. *)
Definition stdout_text (s : process) : string :=
  foldr String.append "" (w_text <$> stdout s).

(** ** What the walk hands to the workers, stated on the tree *)

(** Induction on a tree, with the property available for all children. *)
Section entry_induction.

Variable P : entry -> Prop.
Hypothesis P_File : forall n k, P (File n k).
Hypothesis P_Missing : forall n err, P (Missing n err).
Hypothesis P_Directory :
  forall n rerr children, Forall P children -> P (Directory n rerr children).

Fixpoint entry_nested_ind (e : entry) : P e :=
  match e with
  | File n k => P_File n k
  | Missing n err => P_Missing n err
  | Directory n rerr children =>
      P_Directory n rerr children
        ((fix all (l : list entry) : Forall P l :=
            match l with
            | [] => @List.Forall_nil _ P
            | c :: rest =>
                @List.Forall_cons _ P c rest (entry_nested_ind c) (all rest)
            end) children)
  end.

End entry_induction.

(** The regular files below [path], the tasks a walk that skips symbolic
    links and special files would emit. *)
Fixpoint regular_files (path : string) (e : entry) {struct e} : list string :=
  match e with
  | File _ Regular => [path]
  | File _ _ => []
  | Missing _ _ => []
  | Directory _ (Some _) _ => []
  | Directory _ None children =>
      (fix below (names : list entry) : list string :=
         match names with
         | [] => []
         | c :: rest =>
             regular_files (Join path (entry_name c)) c ++ below rest
         end) children
  end.

(** The paths of the entries below [path] that are not directories, in the
    order of the walk; a directory whose listing fails contributes nothing. *)
Fixpoint non_directories (path : string) (e : entry) {struct e} : list string :=
  match e with
  | File _ _ => [path]
  | Missing _ _ => []
  | Directory _ (Some _) _ => []
  | Directory _ None children =>
      (fix below (names : list entry) : list string :=
         match names with
         | [] => []
         | c :: rest =>
             non_directories (Join path (entry_name c)) c ++ below rest
         end) children
  end.

(** Every [Lstat] of the walk succeeds: no entry that the walk reaches is
    [Missing]. *)
Fixpoint lstat_ok (e : entry) {struct e} : bool :=
  match e with
  | File _ _ => true
  | Missing _ _ => false
  | Directory _ (Some _) _ => true
  | Directory _ None children =>
      (fix all_ok (names : list entry) : bool :=
         match names with
         | [] => true
         | c :: rest => lstat_ok c && all_ok rest
         end) children
  end.

(** The identifiers the [switch] of [checksumWorker] has a case for. *)
Definition supported (sign : string) : bool :=
  String.eqb sign "crc" || String.eqb sign "md5" || String.eqb sign "sha256".

(** The error of the [default] case. *)
Definition not_supported : error := errors_New "Algorithm not supported.".

(** A text is one line when it ends with a line feed and holds no other. *)
Fixpoint is_one_line (s : string) : bool :=
  match s with
  | EmptyString => false
  | String c EmptyString => Ascii.eqb c (Ascii.ascii_of_nat 10)
  | String c rest => negb (Ascii.eqb c (Ascii.ascii_of_nat 10)) && is_one_line rest
  end.

(** ** The digest functions *)

Module Digest.

(** [hex.EncodeToString]: two digits of ["0123456789abcdef"] per byte. *)
Definition hextable : list Ascii.ascii := String.list_ascii_of_string "0123456789abcdef".

Definition hexdigit (v : N) : Ascii.ascii :=
  nth (N.to_nat v) hextable (Ascii.ascii_of_nat 48).

Fixpoint EncodeToString (src : list Byte.byte) : string :=
  match src with
  | [] => EmptyString
  | b :: rest =>
      let v := Byte.to_N b in
      String (hexdigit (N.shiftr v 4%N))
        (String (hexdigit (N.land v 15%N)) (EncodeToString rest))
  end.


Section Provider.

(** Opening and streaming the file at a path: its bytes, or the error. *)
Variable ReadFile : string -> list Byte.byte + error.

(** The hash algorithm, from the bytes to the bytes of the checksum. *)
Variable checksum : list Byte.byte -> list Byte.byte.

(** Modelled from the spec: the digest functions [FileCrc32],
    [FileMd5Sum] and [FileSha256] are declared in a file of the package
    that is not at hand.  Section 4.1: a digest function streams the
    bytes of the file at [path] and returns the digest of the algorithm
    as a lowercase hexadecimal string, or the open/read error. *)
Definition digestFunction : hashfn :=
  fun path =>
    match ReadFile path with
    | inl content => (EncodeToString (checksum content), None)
    | inr err => ("", Some err)
    end.

End Provider.

(** CRC-32 with the IEEE polynomial, reflected, one bit at a time. *)
Definition crc32_bit (c : Z) : Z :=
  (if Z.testbit c 0 then Z.lxor (Z.shiftr c 1) 0xEDB88320 else Z.shiftr c 1)%Z.

Definition crc32_byte (crc : Z) (b : Byte.byte) : Z :=
  Nat.iter 8 crc32_bit (Z.lxor crc (Z.of_N (Byte.to_N b))).

Definition ChecksumIEEE (data : list Byte.byte) : Z :=
  Z.lxor (fold_left crc32_byte data 0xFFFFFFFF%Z) 0xFFFFFFFF%Z.

Definition byte_of_Z (x : Z) : Byte.byte :=
  match Byte.of_N (Z.to_N (x mod 256)%Z) with
  | Some b => b
  | None => Byte.x00
  end.

(** The four bytes of a 32-bit sum, most significant first. *)
Definition Sum32 (x : Z) : list Byte.byte :=
  [byte_of_Z (Z.shiftr x 24%Z); byte_of_Z (Z.shiftr x 16%Z);
   byte_of_Z (Z.shiftr x 8%Z); byte_of_Z x].

Definition crc32 (data : list Byte.byte) : list Byte.byte :=
  Sum32 (ChecksumIEEE data).

End Digest.

(** ** A small file system for the examples *)

Module Sample.

Definition denied (path : string) : error :=
  errorString ("open " +:+ path +:+ ": permission denied").

Definition absent (path : string) : error :=
  errorString ("open " +:+ path +:+ ": no such file or directory").

(** [/tmp/a.txt] holds [hello], [/tmp/b.txt] and the symbolic link
    [/tmp/link] hold [world], [/tmp/locked.txt] cannot be opened. *)
Definition ReadFile (path : string) : list Byte.byte + error :=
  if String.eqb path "/tmp/a.txt" then inl (String.list_byte_of_string "hello")
  else if String.eqb path "/tmp/b.txt" then inl (String.list_byte_of_string "world")
  else if String.eqb path "/tmp/link" then inl (String.list_byte_of_string "world")
  else if String.eqb path "/tmp/locked.txt" then inr (denied path)
  else inr (absent path).

(** The digests the three functions return on these files, as a table. *)
Definition table (hello world : string) : hashfn :=
  fun path =>
    match ReadFile path with
    | inl _ => (if String.eqb path "/tmp/a.txt" then hello else world, None)
    | inr err => ("", Some err)
    end.

Definition FileCrc32 : hashfn := table "3610a686" "3a771143".

Definition FileMd5Sum : hashfn :=
  table "5d41402abc4b2a76b9719d911017c592" "7d793037a0760186574b0282f2f435e7".

Definition FileSha256 : hashfn :=
  table "2cf24dba5fb0a30e26e83b2ac5b9e29e1b161e5c1fa7425e73043362938b9824"
        "486ea46224d1bb4fb680f34f7c9ad96a8f24ec88be73ea8e5a6c65260e9cb8a7".

Definition one_file : entry := Directory "tmp" None [File "a.txt" Regular].

Definition two_files : entry :=
  Directory "tmp" None [File "a.txt" Regular; File "b.txt" Regular].

Definition with_locked : entry :=
  Directory "tmp" None [File "a.txt" Regular; File "locked.txt" Regular].

(** The link and the pipe are only walked in the examples, never opened. *)
Definition with_link : entry :=
  Directory "tmp" None [File "b.txt" Regular; File "link" Symlink;
                        File "pipe" NamedPipe; Directory "sub" None []].

(** [/tmp/gone] was listed but is no longer there when [Lstat] is called. *)
Definition vanished : entry :=
  Directory "tmp" None
    [File "a.txt" Regular;
     Missing "gone" (errorString "lstat /tmp/gone: no such file or directory");
     File "z.txt" Regular].

Definition no_root : entry :=
  Missing "nowhere" (errorString "lstat /nowhere: no such file or directory").

Definition run := exec FileCrc32 FileMd5Sum FileSha256.

End Sample.

(** ** The user accounts package *)

Module Users.

Definition userDB : string := "/etc/passwd".
Definition userShell : string := "/bin/bash".
Definition userAdd : string := "useradd".
Definition userDel : string := "userdel".

Record Userinfo : Type := {
  Uid : string;
  Gid : string;
  Username : string;
  Groupname : string;
  Name : string;
  HomeDir : string;
  UserPasswd : string
}.

(** The zero value [Userinfo{}]. *)
Definition zero : Userinfo :=
  {| Uid := ""; Gid := ""; Username := ""; Groupname := ""; Name := "";
     HomeDir := ""; UserPasswd := "" |}.

(** [UserList]; the nil slice and the empty slice are both [[]]. *)
Record UserList : Type := { users : list Userinfo }.

(** [user.User] and [user.Group] of [os/user]. *)
Record User : Type := {
  User_Uid : string;
  User_Gid : string;
  User_Username : string;
  User_Name : string;
  User_HomeDir : string
}.

Record Group : Type := { Group_Gid : string; Group_Name : string }.

(** An opened file: the bytes its reads deliver, and the error that ends
    them when that is not the end of the file. *)
Record OpenFile : Type := { contents : string; read_error : option error }.

(** What the package asks of the machine and of the libraries it does not
    define: opening a file, the two lookups of [os/user], the password typed
    at the terminal, the outcome of running a command, [strings.TrimSpace]
    and [json.Unmarshal] into a zero [Userinfo].  Within one call of the
    package every lookup precedes the command that is run, so the lookups
    are functions. *)
Record Host : Type := {
  os_Open : string -> OpenFile + error;
  user_Lookup : string -> User + error;
  user_LookupGroupId : string -> Group + error;
  terminal_ReadPassword : string * option error;
  cmd_Output : string -> list string -> string * option error;
  strings_TrimSpace : string -> string;
  json_Unmarshal : string -> Userinfo * option error
}.

(** *** [bufio.Scanner] with the default split function and buffer *)

Definition MaxScanTokenSize : N := 64 * 1024.

Definition linefeed : Ascii.ascii := Ascii.ascii_of_nat 10.
Definition is_LF (c : Ascii.ascii) : bool := Ascii.eqb c linefeed.
Definition is_CR (c : Ascii.ascii) : bool := Ascii.eqb c (Ascii.ascii_of_nat 13).

(** [dropCR]: a final carriage return is dropped. *)
Fixpoint dropCR (s : string) : string :=
  match s with
  | EmptyString => EmptyString
  | String c EmptyString => if is_CR c then EmptyString else s
  | String c rest => String c (dropCR rest)
  end.

(** The tokens [Scan] delivers on [data], where [line] holds the [n] bytes
    read since the last line feed.  A line feed ends a token; the end of the
    data ends a last, unterminated token when it is not empty; and when the
    bytes of a line fill the buffer before its line feed is seen, [Scan]
    stops for good with [ErrTooLong]. *)
Fixpoint scan (data line : string) (n : N) : list string :=
  match data with
  | EmptyString => if (n =? 0)%N then [] else [dropCR line]
  | String c rest =>
      if is_LF c then dropCR line :: scan rest "" 0
      else if (N.succ n =? MaxScanTokenSize)%N then []
      else scan rest (line +:+ String c "") (N.succ n)
  end.

(** The successive [r.Text()] of [for r.Scan()] over an opened file.  A read
    error ends the data like the end of the file does. *)
Definition Scanner_Text (file : OpenFile) : list string :=
  scan (contents file) "" 0.

(** [strings.Split(s, sep)] for a separator [sep] of one byte. *)
Fixpoint Split (s : string) (sep : Ascii.ascii) : list string :=
  match s with
  | EmptyString => [EmptyString]
  | String c rest =>
      if Ascii.eqb c sep then EmptyString :: Split rest sep
      else
        match Split rest sep with
        | p :: ps => String c p :: ps
        | [] => [String c EmptyString]
        end
  end.

Definition colon : Ascii.ascii := Ascii.ascii_of_nat 58.

(** The run-time error of [parts[0]] on an empty slice. *)
Definition index_out_of_range : string :=
  "runtime error: index out of range [0] with length 0".

(** *** Effects of the account operations *)

Inductive event : Type :=
| Exec (name : string) (args : list string)
| Print (text : string)
| ReadPassword
| LogError (msg : string).

(** The receiver [*u] and what the calls have done so far. *)
Record state : Type := { recv : Userinfo; events : list event }.

Definition U (A : Type) : Type := state -> A * state.

Definition uret {A} (a : A) : U A := fun st => (a, st).

Definition ubind {A B} (m : U A) (k : A -> U B) : U B :=
  fun st => let '(a, st') := m st in k a st'.

Definition record (e : event) : U unit :=
  fun st => (tt, {| recv := recv st; events := events st ++ [e] |}).

Definition get_recv : U Userinfo := fun st => (recv st, st).

(** [u.Username = name] *)
Definition set_Username (name : string) : U unit :=
  fun st =>
    (tt, {| recv := {| Uid := Uid (recv st); Gid := Gid (recv st);
                       Username := name; Groupname := Groupname (recv st);
                       Name := Name (recv st); HomeDir := HomeDir (recv st);
                       UserPasswd := UserPasswd (recv st) |};
            events := events st |}).

Notation "x <~ m ;; k" := (ubind m (fun x => k))
  (at level 99, m at next level, right associativity).
Notation "m ~;; k" := (ubind m (fun _ => k))
  (at level 99, right associativity).

(** The commands run among some events. *)
Fixpoint commands (evs : list event) : list (string * list string) :=
  match evs with
  | [] => []
  | Exec name args :: evs' => (name, args) :: commands evs'
  | _ :: evs' => commands evs'
  end.


Section Package.

Variable host : Host.

(** [ReadEtcPasswd]: the text before the first colon of every line. *)
Fixpoint first_fields (lines ulist : list string) : result (list string) :=
  match lines with
  | [] => Normal ulist
  | line :: rest =>
      match Split line colon with
      | [] => Panic index_out_of_range
      | part0 :: _ => first_fields rest (ulist ++ [part0])
      end
  end.

Definition ReadEtcPasswd (f : string) : result (list string + error) :=
  match os_Open host f with
  | inr err => Normal (inr err)
  | inl file =>
      match first_fields (Scanner_Text file) [] with
      | Normal ulist => Normal (inl ulist)
      | Panic msg => Panic msg
      end
  end.

(** The [Userinfo] built from a user and its primary group. *)
Definition uinfo_of (u : User) (g : Group) : Userinfo :=
  {| Uid := User_Uid u; Gid := User_Gid u; Username := User_Username u;
     Groupname := Group_Name g; Name := User_Name u; HomeDir := User_HomeDir u;
     UserPasswd := "" |}.

(** The loop of [UserList.Get]. *)
Fixpoint lookup_all (ulist : list string) (userlist : list Userinfo)
  : UserList + error :=
  match ulist with
  | [] => inl {| users := userlist |}
  | name :: rest =>
      match user_Lookup host name with
      | inr err => inr err
      | inl u =>
          match user_LookupGroupId host (User_Gid u) with
          | inr err => inr err
          | inl g => lookup_all rest (userlist ++ [uinfo_of u g])
          end
      end
  end.

(** [UserList.Get] *)
Definition UserList_Get : result (UserList + error) :=
  match ReadEtcPasswd userDB with
  | Panic msg => Panic msg
  | Normal (inr err) => Normal (inr err)
  | Normal (inl ulist) => Normal (lookup_all ulist [])
  end.

(** [Userinfo.Get] *)
Definition Get (userName : string) : Userinfo + error :=
  match user_Lookup host userName with
  | inr err => inr err
  | inl ui =>
      match user_LookupGroupId host (User_Gid ui) with
      | inr err => inr err
      | inl g => inl (uinfo_of ui g)
      end
  end.

Definition creadential : U (string + error) :=
  u <~ get_recv ;;
  record (Print ("Enter Password for " +:+ Username u +:+ ": ")) ~;;
  record ReadPassword ~;;
  match terminal_ReadPassword host with
  | (_, Some err) => uret (inr err)
  | (password, None) =>
      record (Print LF) ~;;
      uret (inl (strings_TrimSpace host password))
  end.

(** [exec.Command(name, args...).Output()] *)
Definition run (name : string) (args : list string) : U (string * option error) :=
  record (Exec name args) ~;;
  uret (cmd_Output host name args).

Definition add (uinfo : Userinfo) : U (option error) :=
  match Get (Username uinfo) with
  | inl _ =>
      uret (Some (errors_New ("User " +:+ Username uinfo +:+ " already added.")))
  | inr _ =>
      set_Username (Username uinfo) ~;;
      r <~ (if String.eqb (UserPasswd uinfo) "" then creadential
            else uret (inl (UserPasswd uinfo))) ;;
      match r with
      | inr err => uret (Some err)
      | inl passwd =>
          let argUser := ["-m"; "-d"; HomeDir uinfo; "-G"; Groupname uinfo;
                          "-s"; userShell; Username uinfo; "-p"; passwd] in
          out <~ run userAdd argUser ;;
          match out with
          | (_, Some err) =>
              u <~ get_recv ;;
              record (LogError ("Error in adding user : " +:+ Username u
                                +:+ " " +:+ Error err)) ~;;
              uret (Some err)
          | (_, None) => uret None
          end
      end
  end.

Definition delete (uinfo : Userinfo) : U (option error) :=
  let argUser := ["-r"; Username uinfo] in
  out <~ run userDel argUser ;;
  match out with
  | (_, Some err) =>
      record (LogError ("Error in deleting user : " +:+ Username uinfo
                        +:+ "-" +:+ Error err)) ~;;
      uret (Some err)
  | (_, None) => uret None
  end.

(** [readUsers]: the error of [ioutil.ReadAll] is dropped. *)
Definition readUsers (f : string) : string + error :=
  match os_Open host f with
  | inr err => inr err
  | inl jsonFile => inl (contents jsonFile)
  end.

Definition AddUser (usrJsonFile : string) : U (string + error) :=
  match readUsers usrJsonFile with
  | inr err =>
      record (LogError ("Error in reading " +:+ usrJsonFile)) ~;;
      uret (inr err)
  | inl b =>
      match json_Unmarshal host b with
      | (_, Some err) =>
          record (LogError ("Error in unmarshal: " +:+ Error err)) ~;;
          uret (inr err)
      | (uinfo, None) =>
          r <~ add uinfo ;;
          match r with
          | Some err =>
              record (LogError ("Error in adding user " +:+ Username uinfo)) ~;;
              uret (inr err)
          | None => uret (inl (Username uinfo))
          end
      end
  end.

Definition DeleteUser (userName : string) : U (string + error) :=
  match Get userName with
  | inr _ => uret (inr (errors_New ("User " +:+ userName +:+ " not found.")))
  | inl uinfo =>
      r <~ delete uinfo ;;
      match r with
      | Some err => uret (inr err)
      | None => uret (inl (Username uinfo))
      end
  end.

End Package.

(** The text of a password file: one line [name:rest] per entry. *)
Fixpoint passwd_text (entries : list (string * string)) : string :=
  match entries with
  | [] => EmptyString
  | (name, rest) :: entries' =>
      name +:+ String colon rest +:+ String linefeed (passwd_text entries')
  end.

(** A login name holds no colon and no line feed; the other fields hold no
    line feed; the line fits the buffer of the scanner. *)
Definition well_formed (entry : string * string) : Prop :=
  ~ In colon (String.list_ascii_of_string (fst entry))
  /\ ~ In linefeed (String.list_ascii_of_string (fst entry))
  /\ ~ In linefeed (String.list_ascii_of_string (snd entry))
  /\ (N.of_nat (String.length (fst entry +:+ String colon (snd entry)))
      < MaxScanTokenSize)%N.

(** The first field of a line: what precedes its first colon, the whole
    line when it has none. *)
Definition is_first_field (line name : string) : Prop :=
  ~ In colon (String.list_ascii_of_string name)
  /\ (line = name \/ exists rest, line = name +:+ String colon rest).

End Users.

(** ** A small machine for the examples of the account package *)

Module Machine.

Definition passwd : string :=
  "root:x:0:0:root:/root:/bin/bash" +:+ LF
  +:+ "daemon:x:1:1:daemon:/usr/sbin:/usr/sbin/nologin" +:+ LF.

(** A quoted JSON string. *)
Definition q (s : string) : string :=
  String (Ascii.ascii_of_nat 34) (s +:+ String (Ascii.ascii_of_nat 34) "").

Definition alice_json : string :=
  "{" +:+ q "userName" +:+ ":" +:+ q "alice" +:+ ","
  +:+ q "groupName" +:+ ":" +:+ q "staff" +:+ ","
  +:+ q "homeDir" +:+ ":" +:+ q "/home/alice" +:+ "}".

(** The same, for the existing user [daemon] and with a password. *)
Definition daemon_json : string :=
  "{" +:+ q "userName" +:+ ":" +:+ q "daemon" +:+ ","
  +:+ q "userPasswd" +:+ ":" +:+ q "secret" +:+ "}".

Definition alice : Users.Userinfo :=
  {| Users.Uid := ""; Users.Gid := ""; Users.Username := "alice";
     Users.Groupname := "staff"; Users.Name := ""; Users.HomeDir := "/home/alice";
     Users.UserPasswd := "" |}.

Definition daemon : Users.Userinfo :=
  {| Users.Uid := ""; Users.Gid := ""; Users.Username := "daemon";
     Users.Groupname := ""; Users.Name := ""; Users.HomeDir := "";
     Users.UserPasswd := "secret" |}.

Definition Open (f : string) : Users.OpenFile + error :=
  if String.eqb f "/etc/passwd"
  then inl {| Users.contents := passwd; Users.read_error := None |}
  else if String.eqb f "/tmp/alice.json"
  then inl {| Users.contents := alice_json; Users.read_error := None |}
  else if String.eqb f "/tmp/daemon.json"
  then inl {| Users.contents := daemon_json; Users.read_error := None |}
  else inr (errorString ("open " +:+ f +:+ ": no such file or directory")).

Definition Lookup (name : string) : Users.User + error :=
  if String.eqb name "root"
  then inl {| Users.User_Uid := "0"; Users.User_Gid := "0";
              Users.User_Username := "root"; Users.User_Name := "root";
              Users.User_HomeDir := "/root" |}
  else if String.eqb name "daemon"
  then inl {| Users.User_Uid := "1"; Users.User_Gid := "1";
              Users.User_Username := "daemon"; Users.User_Name := "daemon";
              Users.User_HomeDir := "/usr/sbin" |}
  else inr (errorString ("user: unknown user " +:+ name)).

Definition LookupGroupId (gid : string) : Users.Group + error :=
  if String.eqb gid "0"
  then inl {| Users.Group_Gid := "0"; Users.Group_Name := "root" |}
  else if String.eqb gid "1"
  then inl {| Users.Group_Gid := "1"; Users.Group_Name := "daemon" |}
  else inr (errorString ("group: unknown groupid " +:+ gid)).

Definition Unmarshal (b : string) : Users.Userinfo * option error :=
  if String.eqb b alice_json then (alice, None)
  else if String.eqb b daemon_json then (daemon, None)
  else (Users.zero, Some (errorString "unexpected end of JSON input")).

(** Blanks are trimmed on both sides; the typed password is plain ASCII. *)
Fixpoint trim_left (s : string) : string :=
  match s with
  | String c rest => if Ascii.eqb c (Ascii.ascii_of_nat 32) then trim_left rest else s
  | EmptyString => EmptyString
  end.

Definition TrimSpace (s : string) : string :=
  String.rev (trim_left (String.rev (trim_left s))).

(** Every command succeeds; the password typed is [ s3cret ], with blanks
    around it. *)
Definition host : Users.Host :=
  {| Users.os_Open := Open;
     Users.user_Lookup := Lookup;
     Users.user_LookupGroupId := LookupGroupId;
     Users.terminal_ReadPassword := (" s3cret ", None);
     Users.cmd_Output := fun _ _ => ("", None);
     Users.strings_TrimSpace := TrimSpace;
     Users.json_Unmarshal := Unmarshal |}.

(** A line of [MaxScanTokenSize] bytes. *)
Definition long_line : string :=
  String.string_of_list_ascii (repeat (Ascii.ascii_of_nat 120) (N.to_nat Users.MaxScanTokenSize)).

(** A password file that holds such a line between two entries. *)
Definition host_with_long_line : Users.Host :=
  {| Users.os_Open := fun _ =>
       inl {| Users.contents :=
                Users.passwd_text [("root", "x:0:0:root:/root:/bin/bash")]
                +:+ long_line
                +:+ (String Users.linefeed "daemon:x:1:1::/:/bin/sh");
              Users.read_error := None |};
     Users.user_Lookup := Lookup;
     Users.user_LookupGroupId := LookupGroupId;
     Users.terminal_ReadPassword := ("", None);
     Users.cmd_Output := fun _ _ => ("", None);
     Users.strings_TrimSpace := TrimSpace;
     Users.json_Unmarshal := Unmarshal |}.

(** A password file with a blank line between two entries. *)
Definition host_with_blank_line : Users.Host :=
  {| Users.os_Open := fun _ =>
       inl {| Users.contents :=
                "root:x:0:0:root:/root:/bin/bash" +:+ LF +:+ LF
                +:+ "daemon:x:1:1:daemon:/usr/sbin:/bin/sh" +:+ LF;
              Users.read_error := None |};
     Users.user_Lookup := Lookup;
     Users.user_LookupGroupId := LookupGroupId;
     Users.terminal_ReadPassword := ("", None);
     Users.cmd_Output := fun _ _ => ("", None);
     Users.strings_TrimSpace := TrimSpace;
     Users.json_Unmarshal := Unmarshal |}.

Definition start : Users.state := {| Users.recv := Users.zero; Users.events := [] |}.

End Machine.

(** * Properties *)

(** ** The walk with [walkWith] as its callback *)

Lemma walkWith_directory path n tr :
  walkWith path (Some {| Name := n; Mode := ModeDir |}) None tr = (Normal None, tr).
Proof. reflexivity. Qed.

Lemma walkWith_file path n k err tr :
  walkWith path (Some {| Name := n; Mode := mode_of_kind k |}) err tr
  = (Normal None, tr ++ [Go path]).
Proof. destruct k; reflexivity. Qed.

(** The walk starts a worker for the non-directories it meets, in order, up
    to the first entry whose [Lstat] fails, where it panics. *)
Lemma walk_walkWith e :
  forall path tr,
    exists l,
      l `prefix_of` non_directories path e
      /\ (lstat_ok e = true -> l = non_directories path e)
      /\ walk path e walkWith tr
         = (if lstat_ok e then Normal None else Panic nil_dereference,
            tr ++ (Go <$> l)).
Proof.
  induction e as [n k | n err | n rerr children IH] using entry_nested_ind;
    intros path tr.
  - exists [path]. split; [done|]. split; [done|].
    cbn. apply (walkWith_file path n k None tr).
  - exists []. split; [done|]. split; [done|].
    cbn. by rewrite app_nil_r.
  - destruct rerr as [rerr|].
    + exists []. split; [done|]. split; [done|].
      cbn. by rewrite app_nil_r.
    + cbn. revert tr.
      induction IH as [| c rest Hc _ IHrest]; intros tr.
      * exists []. split; [done|]. split; [done|]. cbn. by rewrite app_nil_r.
      * destruct (Hc (Join path (entry_name c)) tr) as (lc & Hpre & Hall & Hwalk).
        destruct c as [cn ck | cn crerr cchildren | cn cerr].
        -- unfold bind at 1. rewrite Hwalk. cbn [lstat_ok andb].
           destruct (IHrest (tr ++ (Go <$> lc))) as (lr & Hpre' & Hall' & Hvisit).
           exists (lc ++ lr). rewrite (Hall eq_refl). split.
           { by apply prefix_app. }
           split.
           { intros Hok. by rewrite (Hall' Hok). }
           rewrite <- (Hall eq_refl). rewrite Hvisit.
           by rewrite fmap_app, app_assoc.
        -- unfold bind at 1. rewrite Hwalk.
           destruct (lstat_ok (Directory cn crerr cchildren)) eqn:Hok.
           ++ destruct (IHrest (tr ++ (Go <$> lc))) as (lr & Hpre' & Hall' & Hvisit).
              exists (lc ++ lr). rewrite (Hall eq_refl). split.
              { by apply prefix_app. }
              split.
              { intros Hok'. cbn in Hok'. by rewrite (Hall' Hok'). }
              rewrite <- (Hall eq_refl). cbn [andb]. rewrite Hvisit.
              by rewrite fmap_app, app_assoc.
           ++ exists lc. split.
              { by apply prefix_app_r. }
              split; [done|]. done.
        -- exists []. split; [apply prefix_nil|]. split; [done|].
           cbn. by rewrite app_nil_r.
Qed.

Lemma main_walks dest fsys :
  exists l,
    l `prefix_of` non_directories dest fsys
    /\ (lstat_ok fsys = true -> l = non_directories dest fsys)
    /\ main dest fsys []
       = (if lstat_ok fsys then Normal tt else Panic nil_dereference, Go <$> l).
Proof.
  destruct fsys as [n k | n rerr children | n err].
  - destruct (walk_walkWith (File n k) dest []) as (l & Hpre & Hall & Hwalk).
    exists l. split; [done|]. split; [done|].
    unfold main, Walk, bind. rewrite Hwalk. reflexivity.
  - destruct (walk_walkWith (Directory n rerr children) dest [])
      as (l & Hpre & Hall & Hwalk).
    exists l. split; [done|]. split; [done|].
    unfold main, Walk, bind. rewrite Hwalk.
    destruct (lstat_ok (Directory n rerr children)); reflexivity.
  - exists []. split; [done|]. split; [done|]. reflexivity.
Qed.

Lemma tasks_Go l : tasks (Go <$> l) = l.
Proof. induction l as [|p l IH]; cbn; [done | by rewrite IH]. Qed.

Lemma tasks_app effs1 effs2 : tasks (effs1 ++ effs2) = tasks effs1 ++ tasks effs2.
Proof.
  induction effs1 as [|[p|t] effs1 IH]; cbn; [done | by rewrite IH | done].
Qed.

(** ** Steps of the process *)

Lemma hash_and_report_eq filehash filePath tr :
  hash_and_report filehash filePath tr
  = (Normal (snd (filehash filePath)), tr ++ [Printf (report filehash filePath)]).
Proof.
  unfold hash_and_report, report.
  destruct (filehash filePath) as [cs [e|]]; reflexivity.
Qed.

Lemma set_worker_eq i st s g :
  workers s !! i = Some g ->
  set_worker i st s
  = {| main_todo := main_todo s; main_end := main_end s;
       workers := <[i := {| g_path := g_path g; g_pc := st |}]> (workers s);
       stdout := stdout s; exited := exited s |}.
Proof. intros H. unfold set_worker. by rewrite H. Qed.

Lemma supported_select F1 F2 F3 sign :
  supported sign = true ->
  exists filehash, select_filehash F1 F2 F3 sign = inl filehash.
Proof.
  unfold supported, select_filehash. intros H.
  destruct (String.eqb sign "crc"); [by eexists|].
  destruct (String.eqb sign "md5"); [by eexists|].
  destruct (String.eqb sign "sha256"); [by eexists|]. done.
Qed.

Lemma unsupported_select F1 F2 F3 sign :
  supported sign = false ->
  select_filehash F1 F2 F3 sign = inr not_supported.
Proof.
  unfold supported, select_filehash. intros H.
  destruct (String.eqb sign "crc"); [done|].
  destruct (String.eqb sign "md5"); [done|].
  destruct (String.eqb sign "sha256"); [done|]. done.
Qed.

Section RunFacts.

Variables FileCrc32 FileMd5Sum FileSha256 : hashfn.
Variable sign : string.

Local Notation step := (step FileCrc32 FileMd5Sum FileSha256 sign).
Local Notation exec := (exec FileCrc32 FileMd5Sum FileSha256 sign).
Local Notation reachable := (reachable FileCrc32 FileMd5Sum FileSha256 sign).
Local Notation transition := (transition FileCrc32 FileMd5Sum FileSha256 sign).
Local Notation selected := (select_filehash FileCrc32 FileMd5Sum FileSha256 sign).

Lemma step_transition c s s' : step c s = Some s' -> transition s s'.
Proof.
  unfold step. destruct (exited s) eqn:Hex; [done|].
  destruct c as [|i].
  - destruct (main_todo s) as [|e rest] eqn:Htodo; intros [= <-].
    + by apply main_returns.
    + by eapply main_effect.
  - destruct (workers s !! i) as [g|] eqn:Hg; [|done].
    destruct (g_pc g) as [|filehash|err] eqn:Hpc; [| |done].
    + destruct selected as [filehash|err] eqn:Hsel; intros [= <-].
      * by eapply worker_selects.
      * by eapply worker_rejects.
    + rewrite hash_and_report_eq. intros [= <-]. cbn.
      by eapply worker_reports.
Qed.

Lemma transition_step s s' : transition s s' -> exists c, step c s = Some s'.
Proof.
  intros [s0 e rest Hex Htodo | s0 Hex Htodo | s0 i g filehash Hex Hg Hpc Hsel
         | s0 i g err Hex Hg Hpc Hsel | s0 i g filehash Hex Hg Hpc].
  - exists RunMain. unfold step. by rewrite Hex, Htodo.
  - exists RunMain. unfold step. by rewrite Hex, Htodo.
  - exists (RunWorker i). unfold step. by rewrite Hex, Hg, Hpc, Hsel.
  - exists (RunWorker i). unfold step. by rewrite Hex, Hg, Hpc, Hsel.
  - exists (RunWorker i). unfold step.
    by rewrite Hex, Hg, Hpc, hash_and_report_eq.
Qed.

Lemma exec_app sched1 sched2 s :
  exec (sched1 ++ sched2) s
  = match exec sched1 s with
    | Some s' => exec sched2 s'
    | None => None
    end.
Proof.
  revert s. induction sched1 as [|c sched1 IH]; intros s; cbn; [done|].
  destruct (step c s); [apply IH | done].
Qed.

Lemma reachable_refl s : reachable s s.
Proof. by exists []. Qed.

Lemma reachable_step s0 s c s' :
  reachable s0 s -> step c s = Some s' -> reachable s0 s'.
Proof.
  intros [sched H] Hs. exists (sched ++ [c]).
  rewrite exec_app, H. cbn. by rewrite Hs.
Qed.

(** Invariants: what holds at the start and is kept by every transition
    holds in every reachable state. *)
Lemma reachable_invariant (I : process -> Prop) s0 :
  I s0 ->
  (forall s s', I s -> transition s s' -> I s') ->
  forall s, reachable s0 s -> I s.
Proof.
  intros H0 Hstep s [sched Hrun]. revert s0 H0 Hrun.
  induction sched as [|c sched IH]; intros s0 H0 Hrun; cbn in Hrun.
  - by injection Hrun as <-.
  - destruct (step c s0) as [s1|] eqn:Hs; [|done].
    apply (IH s1); [|done].
    eapply Hstep; [done|]. by eapply step_transition.
Qed.

End RunFacts.

(** ** Invariants of a run *)

Lemma fmap_path_insert (ws : list goroutine) i g st :
  ws !! i = Some g ->
  g_path <$> <[i := {| g_path := g_path g; g_pc := st |}]> ws = g_path <$> ws.
Proof.
  intros H. rewrite list_fmap_insert. cbn.
  apply list_insert_id. by rewrite list_lookup_fmap, H.
Qed.

Lemma set_worker_emit_eq i st s g by_ t :
  workers s !! i = Some g ->
  set_worker i st (emit by_ (Printf t) s)
  = {| main_todo := main_todo s; main_end := main_end s;
       workers := <[i := {| g_path := g_path g; g_pc := st |}]> (workers s);
       stdout := stdout s ++ [{| w_by := by_; w_text := t |}];
       exited := exited s |}.
Proof. intros H. unfold set_worker. cbn. by rewrite H. Qed.

Section Invariants.

Variables FileCrc32 FileMd5Sum FileSha256 : hashfn.
Variable sign : string.

Local Notation reachable := (reachable FileCrc32 FileMd5Sum FileSha256 sign).
Local Notation transition := (transition FileCrc32 FileMd5Sum FileSha256 sign).

(** The way [main] ends is fixed from the start. *)
Lemma transition_main_end s s' : transition s s' -> main_end s' = main_end s.
Proof.
  intros [s0 e rest Hex Htodo | s0 Hex Htodo | s0 i g filehash Hex Hg Hpc Hsel
         | s0 i g err Hex Hg Hpc Hsel | s0 i g filehash Hex Hg Hpc].
  - by destruct e.
  - done.
  - by rewrite (set_worker_eq _ _ _ _ Hg).
  - by rewrite (set_worker_eq _ _ _ _ Hg).
  - by rewrite (set_worker_emit_eq _ _ _ _ _ _ Hg).
Qed.

(** No task is lost or made up: the workers started so far and the [go]
    statements still to come are the tasks of the walk. *)
Lemma transition_tasks s s' :
  transition s s' ->
  (g_path <$> workers s') ++ tasks (main_todo s')
  = (g_path <$> workers s) ++ tasks (main_todo s).
Proof.
  intros [s0 e rest Hex Htodo | s0 Hex Htodo | s0 i g filehash Hex Hg Hpc Hsel
         | s0 i g err Hex Hg Hpc Hsel | s0 i g filehash Hex Hg Hpc].
  - rewrite Htodo. destruct e as [p|t]; cbn; rewrite Htodo; cbn; [|done].
    by rewrite fmap_app, <- app_assoc.
  - done.
  - rewrite (set_worker_eq _ _ _ _ Hg). cbn. by rewrite fmap_path_insert.
  - rewrite (set_worker_eq _ _ _ _ Hg). cbn. by rewrite fmap_path_insert.
  - rewrite (set_worker_emit_eq _ _ _ _ _ _ Hg). cbn. by rewrite fmap_path_insert.
Qed.

(** The only exit status is the one [main] ends with. *)
Lemma transition_exited s s' :
  transition s s' ->
  exited s' = None \/ exited s' = Some (exit_status (main_end s)).
Proof.
  intros [s0 e rest Hex Htodo | s0 Hex Htodo | s0 i g filehash Hex Hg Hpc Hsel
         | s0 i g err Hex Hg Hpc Hsel | s0 i g filehash Hex Hg Hpc].
  - left. by destruct e.
  - by right.
  - left. by rewrite (set_worker_eq _ _ _ _ Hg).
  - left. by rewrite (set_worker_eq _ _ _ _ Hg).
  - left. by rewrite (set_worker_emit_eq _ _ _ _ _ _ Hg).
Qed.

Lemma reachable_main_end s0 s : reachable s0 s -> main_end s = main_end s0.
Proof.
  apply (reachable_invariant _ _ _ _ (fun s => main_end s = main_end s0)); [done|].
  intros s1 s2 H1 Ht. by rewrite (transition_main_end _ _ Ht).
Qed.

Lemma reachable_tasks s0 s :
  reachable s0 s ->
  (g_path <$> workers s) ++ tasks (main_todo s)
  = (g_path <$> workers s0) ++ tasks (main_todo s0).
Proof.
  apply (reachable_invariant _ _ _ _
           (fun s => (g_path <$> workers s) ++ tasks (main_todo s)
                     = (g_path <$> workers s0) ++ tasks (main_todo s0))); [done|].
  intros s1 s2 H1 Ht. by rewrite (transition_tasks _ _ Ht).
Qed.

Lemma reachable_exited s0 s :
  exited s0 = None ->
  reachable s0 s ->
  exited s = None \/ exited s = Some (exit_status (main_end s0)).
Proof.
  intros H0 Hr.
  assert (main_end s = main_end s0
          /\ (exited s = None \/ exited s = Some (exit_status (main_end s0))))
    as [_ H]; [|done].
  revert s Hr. apply reachable_invariant; [by split; [|left]|].
  intros s1 s2 [Hm _] Ht. split.
  - by rewrite (transition_main_end _ _ Ht).
  - rewrite <- Hm. by apply transition_exited.
Qed.

(** When [main] only has [go] statements to perform, every write on
    standard output is a worker's. *)
Lemma reachable_only_go s0 s :
  (exists l, main_todo s0 = Go <$> l) ->
  Forall (fun w => is_Some (w_by w)) (stdout s0) ->
  reachable s0 s ->
  (exists l, main_todo s = Go <$> l)
  /\ Forall (fun w => is_Some (w_by w)) (stdout s).
Proof.
  intros H0 H0' Hr. revert s Hr. apply reachable_invariant; [done|].
  intros s1 s2 Hinv Ht. revert Hinv.
  destruct Ht as
    [s e rest Hex Htodo | s Hex Htodo | s i g filehash Hex Hg Hpc Hsel
    | s i g err Hex Hg Hpc Hsel | s i g filehash Hex Hg Hpc];
    intros [[l Hl] Hw].
  - rewrite Htodo in Hl. destruct l as [|p l]; [done|].
    injection Hl as -> ->. cbn. rewrite Htodo. cbn. split; [by exists l | done].
  - cbn. split; [by exists l | done].
  - rewrite (set_worker_eq _ _ _ _ Hg). cbn. split; [by exists l | done].
  - rewrite (set_worker_eq _ _ _ _ Hg). cbn. split; [by exists l | done].
  - rewrite (set_worker_emit_eq _ _ _ _ _ _ Hg). cbn. split; [by exists l |].
    apply Forall_app. split; [done|]. apply Forall_singleton. by eexists.
Qed.

(** With an identifier the [switch] has no case for, a worker has either
    not run or returned the [default] error, and nothing was written by a
    worker. *)
Lemma reachable_unsupported s0 s :
  supported sign = false ->
  Forall (fun g => g_pc g = Spawned \/ g_pc g = Returned (Some not_supported))
         (workers s0) ->
  worker_writes s0 = [] ->
  reachable s0 s ->
  Forall (fun g => g_pc g = Spawned \/ g_pc g = Returned (Some not_supported))
         (workers s)
  /\ worker_writes s = [].
Proof.
  intros Hsign H0 H0' Hr. revert s Hr. apply reachable_invariant; [done|].
  intros s1 s2 Hinv Ht. revert Hinv.
  destruct Ht as
    [s e rest Hex Htodo | s Hex Htodo | s i g filehash Hex Hg Hpc Hsel
    | s i g err Hex Hg Hpc Hsel | s i g filehash Hex Hg Hpc];
    intros [Hws Hout].
  - destruct e as [p|t]; cbn.
    + split; [|done]. apply Forall_app. split; [done|].
      apply Forall_singleton. by left.
    + split; [done|]. unfold worker_writes in *. cbn.
      rewrite filter_app, Hout. cbn.
      case_decide as Hn; [by destruct Hn | done].
  - done.
  - by rewrite (unsupported_select _ _ _ _ Hsign) in Hsel.
  - rewrite (unsupported_select _ _ _ _ Hsign) in Hsel. injection Hsel as <-.
    rewrite (set_worker_eq _ _ _ _ Hg). cbn. split; [|done].
    apply Forall_insert; [done|]. by right.
  - exfalso. rewrite Forall_lookup in Hws. destruct (Hws i g Hg); congruence.
Qed.

End Invariants.

Lemma start_eq dest fsys :
  start dest fsys
  = {| main_todo := snd (main dest fsys []); main_end := fst (main dest fsys []);
       workers := []; stdout := []; exited := None |}.
Proof. unfold start. by destruct (main dest fsys []). Qed.

Lemma start_only_go dest fsys : exists l, main_todo (start dest fsys) = Go <$> l.
Proof.
  destruct (main_walks dest fsys) as (l & _ & _ & Hmain).
  exists l. by rewrite start_eq, Hmain.
Qed.

Lemma filter_all {A} (P : A -> Prop) `{!forall x, Decision (P x)} (l : list A) :
  Forall P l -> filter P l = l.
Proof.
  induction 1 as [|x l Hx _ IH]; [done|].
  rewrite filter_cons_True by done. by rewrite IH.
Qed.

(** ** All tasks in flight at once *)

Section AllAtOnce.

Variables FileCrc32 FileMd5Sum FileSha256 : hashfn.
Variable sign : string.

Local Notation exec := (exec FileCrc32 FileMd5Sum FileSha256 sign).

(** The main goroutine runs all its [go] statements in a row. *)
Lemma main_spawns_all l :
  forall s,
    exited s = None ->
    main_todo s = Go <$> l ->
    exec (replicate (length l) RunMain) s
    = Some {| main_todo := []; main_end := main_end s;
              workers := workers s
                         ++ ((fun p => {| g_path := p; g_pc := Spawned |}) <$> l);
              stdout := stdout s; exited := None |}.
Proof.
  induction l as [|p l IH]; intros s Hex Htodo; cbn.
  - destruct s; cbn in *; subst. by rewrite app_nil_r.
  - unfold step. rewrite Hex, Htodo. cbn.
    rewrite IH; cbn; [|done|by rewrite Htodo].
    by rewrite <- app_assoc.
Qed.

(** Then each worker in turn enters the call of its digest function. *)
Lemma workers_select_all filehash rest :
  select_filehash FileCrc32 FileMd5Sum FileSha256 sign = inl filehash ->
  forall done s,
    exited s = None ->
    workers s
    = done ++ ((fun p => {| g_path := p; g_pc := Spawned |}) <$> rest) ->
    exec (RunWorker <$> seq (length done) (length rest)) s
    = Some {| main_todo := main_todo s; main_end := main_end s;
              workers := done
                         ++ ((fun p => {| g_path := p; g_pc := Hashing filehash |})
                               <$> rest);
              stdout := stdout s; exited := None |}.
Proof.
  intros Hsel. induction rest as [|p rest IH]; intros done s Hex Hws; cbn.
  - destruct s; cbn in *; by subst.
  - assert (workers s !! length done
            = Some {| g_path := p; g_pc := Spawned |}) as Hg.
    { rewrite Hws. cbn. by rewrite list_lookup_middle. }
    unfold step. rewrite Hex, Hg. cbn. rewrite Hsel.
    rewrite (set_worker_eq _ _ _ _ Hg). cbn.
    replace (S (length done))
      with (length (done ++ [{| g_path := p; g_pc := Hashing filehash |}]))
      by (rewrite length_app; cbn; lia).
    rewrite IH; cbn; [by rewrite <- app_assoc | done |].
    rewrite Hws. cbn.
    rewrite insert_app_r_alt by lia. rewrite Nat.sub_diag. cbn.
    by rewrite <- app_assoc.
Qed.

End AllAtOnce.

Lemma hashing_count_all filehash (l : list string) todo r out ex :
  hashing_count
    {| main_todo := todo; main_end := r;
       workers := (fun p => {| g_path := p; g_pc := Hashing filehash |}) <$> l;
       stdout := out; exited := ex |}
  = length l.
Proof.
  unfold hashing_count. cbn.
  induction l as [|p l IH]; [done|].
  rewrite fmap_cons, filter_cons_True by done. cbn [length]. by rewrite IH.
Qed.

Lemma unsupported_stdout_empty
  (FileCrc32 FileMd5Sum FileSha256 : hashfn) (sign dest : string)
  (fsys : entry) (s : process) :
  supported sign = false ->
  reachable FileCrc32 FileMd5Sum FileSha256 sign (start dest fsys) s ->
  Forall (fun g => g_pc g = Spawned \/ g_pc g = Returned (Some not_supported))
         (workers s)
  /\ stdout s = [].
Proof.
  intros Hsign Hr.
  assert (workers (start dest fsys) = []) as Hws0 by (by rewrite start_eq).
  assert (stdout (start dest fsys) = []) as Hout0 by (by rewrite start_eq).
  destruct (reachable_unsupported FileCrc32 FileMd5Sum FileSha256 sign
              (start dest fsys) s Hsign) as [Hws Hout].
  { rewrite Hws0. constructor. }
  { unfold worker_writes. by rewrite Hout0. }
  { done. }
  split; [done|].
  destruct (reachable_only_go FileCrc32 FileMd5Sum FileSha256 sign
              (start dest fsys) s (start_only_go dest fsys)) as [_ Hby].
  { rewrite Hout0. constructor. }
  { done. }
  rewrite <- (filter_all _ _ Hby). exact Hout.
Qed.

(** ** A worker's steps are a call of [checksumWorker] *)

Lemma worker_runs_checksumWorker
  (FileCrc32 FileMd5Sum FileSha256 : hashfn) (sign : string)
  (s : process) (i : nat) (g : goroutine) :
  exited s = None ->
  workers s !! i = Some g ->
  g_pc g = Spawned ->
  exists r effs sched,
    checksumWorker FileCrc32 FileMd5Sum FileSha256 sign (g_path g) []
    = (Normal r, effs)
    /\ Forall (fun c => c = RunWorker i) sched
    /\ exec FileCrc32 FileMd5Sum FileSha256 sign sched s
       = Some (set_worker i (Returned r) (emit_all (Some i) effs s)).
Proof.
  intros Hex Hg Hpc. unfold checksumWorker.
  destruct (select_filehash FileCrc32 FileMd5Sum FileSha256 sign)
    as [filehash|err] eqn:Hsel.
  - exists (snd (filehash (g_path g))), [Printf (report filehash (g_path g))],
      [RunWorker i; RunWorker i].
    split; [by rewrite hash_and_report_eq|]. split; [by repeat constructor|].
    cbn [exec]. unfold step at 1. rewrite Hex, Hg, Hpc, Hsel.
    set (s1 := set_worker i (Hashing filehash) s).
    assert (exited s1 = None) as Hex1.
    { unfold s1. by rewrite (set_worker_eq _ _ _ _ Hg). }
    assert (workers s1 !! i
            = Some {| g_path := g_path g; g_pc := Hashing filehash |}) as Hg1.
    { unfold s1. rewrite (set_worker_eq _ _ _ _ Hg). cbn.
      apply list_lookup_insert_eq. by eapply lookup_lt_Some. }
    unfold step. rewrite Hex1, Hg1. cbn [g_pc g_path].
    rewrite hash_and_report_eq. f_equal.
    change (set_worker i (Returned (snd (filehash (g_path g))))
              (emit (Some i) (Printf (report filehash (g_path g))) s1)
            = set_worker i (Returned (snd (filehash (g_path g))))
                (emit (Some i) (Printf (report filehash (g_path g))) s)).
    rewrite (set_worker_emit_eq _ _ _ _ _ _ Hg1),
      (set_worker_emit_eq _ _ _ _ _ _ Hg).
    unfold s1. rewrite (set_worker_eq _ _ _ _ Hg). cbn.
    by rewrite list_insert_insert_eq.
  - exists (Some err), [], [RunWorker i].
    split; [done|]. split; [by repeat constructor|].
    cbn. unfold step. by rewrite Hex, Hg, Hpc, Hsel.
Qed.

(** ** [main] does not wait *)

(** Whatever the tree and the identifier, the main goroutine can run to its
    end before any worker is scheduled: the process is then over, every task
    of the walk has a worker that has not run, and nothing was written. *)
Lemma main_can_exit_first
  (FileCrc32 FileMd5Sum FileSha256 : hashfn) (sign dest : string) (fsys : entry) :
  exists s,
    reachable FileCrc32 FileMd5Sum FileSha256 sign (start dest fsys) s
    /\ exited s = Some (exit_status (fst (main dest fsys [])))
    /\ g_path <$> workers s = tasks (snd (main dest fsys []))
    /\ Forall (fun g => g_pc g = Spawned) (workers s)
    /\ stdout s = [].
Proof.
  destruct (main_walks dest fsys) as (l & _ & _ & Hmain).
  eexists. split.
  { exists (replicate (length l) RunMain ++ [RunMain]).
    rewrite exec_app, start_eq, Hmain.
    rewrite (main_spawns_all _ _ _ _ l) by done. reflexivity. }
  rewrite Hmain. cbn. rewrite tasks_Go. split; [done|]. split.
  - rewrite <- list_fmap_compose. apply list_fmap_id.
  - split; [|done]. by apply Forall_fmap, Forall_true.
Qed.

(** ** Runs in which every worker gets to return *)

Lemma filter_insert_middle {A} (P : A -> Prop) `{!forall x, Decision (P x)}
  (l : list A) i x y :
  l !! i = Some x ->
  filter P l = filter P (take i l) ++ filter P [x] ++ filter P (drop (S i) l)
  /\ filter P (<[i := y]> l)
     = filter P (take i l) ++ filter P [y] ++ filter P (drop (S i) l).
Proof.
  intros Hi. split.
  - rewrite <- (take_drop_middle l i x Hi) at 1. rewrite filter_app.
    change (x :: drop (S i) l) with ([x] ++ drop (S i) l).
    by rewrite filter_app.
  - rewrite insert_take_drop by (by eapply lookup_lt_Some). rewrite filter_app.
    change (y :: drop (S i) l) with ([y] ++ drop (S i) l).
    by rewrite filter_app.
Qed.

Section Drained.

Variables FileCrc32 FileMd5Sum FileSha256 : hashfn.
Variable sign : string.
Variable filehash : hashfn.
Hypothesis selected :
  select_filehash FileCrc32 FileMd5Sum FileSha256 sign = inl filehash.

Local Notation reachable := (reachable FileCrc32 FileMd5Sum FileSha256 sign).

(** What is on standard output is, up to order, the report of each worker
    that has returned. *)
Lemma reachable_reports dest fsys s :
  reachable (start dest fsys) s ->
  (exists l, main_todo s = Go <$> l)
  /\ Forall (fun g => forall h, g_pc g = Hashing h -> h = filehash) (workers s)
  /\ w_text <$> stdout s
     ≡ₚ (fun g => report filehash (g_path g))
          <$> filter (fun g => has_returned g = true) (workers s).
Proof.
  revert s. apply reachable_invariant.
  { rewrite start_eq. split; [|by split].
    destruct (start_only_go dest fsys) as [l Hl]. exists l.
    by rewrite start_eq in Hl. }
  intros s1 s2 Hinv Ht. revert Hinv.
  destruct Ht as
    [s0 e rest Hex Htodo | s0 Hex Htodo | s0 i g h Hex Hg Hpc Hsel
    | s0 i g err Hex Hg Hpc Hsel | s0 i g h Hex Hg Hpc];
    intros ([l Hl] & Hhash & Hout).
  - rewrite Htodo in Hl. destruct l as [|p l]; [done|].
    injection Hl as -> ->. cbn. rewrite Htodo. cbn.
    split; [by exists l|]. split.
    + apply Forall_app. split; [done|]. by apply Forall_singleton.
    + rewrite filter_app. cbn. by rewrite app_nil_r.
  - cbn. split; [by exists l | by split].
  - rewrite (set_worker_eq _ _ _ _ Hg). cbn.
    rewrite selected in Hsel. injection Hsel as <-.
    split; [by exists l|]. split.
    + apply Forall_insert; [done|]. cbn. by intros h' [= <-].
    + destruct (filter_insert_middle (fun g => has_returned g = true)
                  (workers s0) i g
                  {| g_path := g_path g; g_pc := Hashing filehash |} Hg)
        as [Hold Hnew].
      rewrite Hnew. rewrite Hold in Hout.
      rewrite filter_cons_False in Hout
        by (unfold has_returned; rewrite Hpc; done).
      by rewrite filter_cons_False by done.
  - by rewrite selected in Hsel.
  - rewrite (set_worker_emit_eq _ _ _ _ _ _ Hg). cbn.
    assert (h = filehash) as ->.
    { rewrite Forall_lookup in Hhash. by eapply Hhash. }
    split; [by exists l|]. split.
    + apply Forall_insert; [done|]. cbn. by intros h' [=].
    + destruct (filter_insert_middle (fun g => has_returned g = true)
                  (workers s0) i g
                  {| g_path := g_path g;
                     g_pc := Returned (snd (filehash (g_path g))) |} Hg)
        as [Hold Hnew].
      rewrite Hnew. rewrite Hold in Hout.
      rewrite filter_cons_False in Hout
        by (unfold has_returned; rewrite Hpc; done).
      rewrite filter_cons_True by done. cbn in *.
      rewrite fmap_app, Hout, !fmap_app. cbn.
      rewrite <- app_assoc. f_equiv.
      apply (Permutation_app_comm _ [report filehash (g_path g)]).
Qed.


End Drained.


(** ** A worker's step is local *)

Section Locality.

Variables FileCrc32 FileMd5Sum FileSha256 : hashfn.
Variable sign : string.

Local Notation step := (step FileCrc32 FileMd5Sum FileSha256 sign).
Local Notation exec := (exec FileCrc32 FileMd5Sum FileSha256 sign).

Lemma others_agree_refl i s : others_agree i s s.
Proof. by repeat split. Qed.

(** A step of the main goroutine or of another worker can be taken whatever
    worker [i] has done, and with the same effect. *)
Lemma step_local i c s s' t :
  others_agree i s s' ->
  c <> RunWorker i ->
  step c s = Some t ->
  exists t', step c s' = Some t' /\ others_agree i t t'.
Proof.
  intros (Htodo & Hend & Hex & Hlen & Hws & Hout) Hc.
  unfold step. rewrite Hex. destruct (exited s) eqn:Hexs; [done|].
  destruct c as [|j].
  - rewrite Htodo. destruct (main_todo s) as [|e rest] eqn:Hts; intros [= <-].
    + eexists. split; [done|]. rewrite Hend. unfold others_agree; cbn. repeat split; (done || congruence).
    + eexists. split; [done|]. destruct e as [p|txt]; unfold others_agree; cbn.
      * rewrite Htodo, Hts. repeat split; try (done || congruence).
        -- by rewrite !length_app, Hlen.
        -- intros j Hj. destruct (decide (j < length (workers s))).
           ++ rewrite !lookup_app_l by lia. by apply Hws.
           ++ rewrite !lookup_app_r by lia. by rewrite Hlen.
      * rewrite Htodo, Hts. repeat split; try (done || congruence).
        by rewrite !filter_app, Hout.
  - assert (j <> i) as Hj by congruence.
    rewrite (Hws j Hj). destruct (workers s !! j) as [g|] eqn:Hg; [|done].
    assert (workers s' !! j = Some g) as Hg' by (by rewrite Hws).
    destruct (g_pc g) as [|filehash|err]; [| |done].
    + destruct (select_filehash FileCrc32 FileMd5Sum FileSha256 sign)
        as [filehash|err]; intros [= <-]; (eexists; split; [done|]);
        rewrite (set_worker_eq _ _ _ _ Hg), (set_worker_eq _ _ _ _ Hg');
        (unfold others_agree; cbn; repeat split; try (done || congruence);
         [ by rewrite !length_insert
         | intros k Hk; destruct (decide (k = j)) as [->|Hkj];
           [ rewrite !list_lookup_insert_eq;
             [done | by eapply lookup_lt_Some | by eapply lookup_lt_Some]
           | rewrite !list_lookup_insert_ne by done; by apply Hws ] ]).
    + rewrite !hash_and_report_eq. intros [= <-]. eexists. split; [done|]. cbn.
      rewrite (set_worker_eq j _ _ g) by exact Hg.
      rewrite (set_worker_eq j _ _ g) by exact Hg'.
      unfold others_agree; cbn. repeat split; try (done || congruence).
      * by rewrite !length_insert.
      * intros k Hk. destruct (decide (k = j)) as [->|Hkj].
        -- rewrite !list_lookup_insert_eq;
             [done | by eapply lookup_lt_Some | by eapply lookup_lt_Some].
        -- rewrite !list_lookup_insert_ne by done. by apply Hws.
      * by rewrite !filter_app, Hout.
Qed.

Lemma exec_local i sched :
  forall s s' t,
    others_agree i s s' ->
    Forall (fun c => c <> RunWorker i) sched ->
    exec sched s = Some t ->
    exists t', exec sched s' = Some t' /\ others_agree i t t'.
Proof.
  induction sched as [|c sched IH]; intros s s' t Hag Hsched Hrun; cbn in *.
  - injection Hrun as <-. by exists s'.
  - apply Forall_cons in Hsched as [Hc Hsched].
    destruct (step c s) as [s1|] eqn:Hs; [|done].
    destruct (step_local i c s s' s1 Hag Hc Hs) as (s1' & Hs' & Hag').
    rewrite Hs'. by eapply IH.
Qed.

End Locality.

(** ** The digest functions and their encoding *)



(** The table of the examples holds the digests the modelled CRC-32
    function computes on the sample files. *)
Lemma sample_table_is_crc32 :
  Digest.digestFunction Sample.ReadFile Digest.crc32 "/tmp/a.txt"
  = Sample.FileCrc32 "/tmp/a.txt"
  /\ Digest.digestFunction Sample.ReadFile Digest.crc32 "/tmp/b.txt"
     = Sample.FileCrc32 "/tmp/b.txt"
  /\ Digest.digestFunction Sample.ReadFile Digest.crc32 "/tmp/locked.txt"
     = Sample.FileCrc32 "/tmp/locked.txt".
Proof. repeat split; vm_compute; reflexivity. Qed.

(** ** The claims *)

(** C1, counterexample.  With the identifier [sha1], which the [switch] has
    no case for, the walk of a directory with two files is performed all the
    same and starts two workers; each of them runs the check and returns
    its error, nothing is printed, and [main] returns normally. *)
Lemma unsupported_sign_still_walks :
  supported "sha1" = false
  /\ Sample.run "sha1" [RunMain; RunMain; RunWorker 0; RunWorker 1; RunMain]
       (start "/tmp" Sample.two_files)
     = Some {| main_todo := [];
               main_end := Normal tt;
               workers :=
                 [ {| g_path := "/tmp/a.txt"; g_pc := Returned (Some not_supported) |};
                   {| g_path := "/tmp/b.txt"; g_pc := Returned (Some not_supported) |} ];
               stdout := [];
               exited := Some 0%Z |}.
Proof. split; reflexivity. Qed.

(** C1, as the code has it.  An identifier outside [crc], [md5], [sha256]
    is not checked before the walk: the walk is performed as for any other
    identifier, every task it emits gets its worker, and each worker checks
    the identifier itself, returning the error [Algorithm not supported.]
    that nobody reads.  No outcome is written: standard output stays
    empty. *)
Theorem unsupported_sign_is_checked_by_each_worker
  (FileCrc32 FileMd5Sum FileSha256 : hashfn) (sign dest : string)
  (fsys : entry) (s : process) :
  supported sign = false ->
  reachable FileCrc32 FileMd5Sum FileSha256 sign (start dest fsys) s ->
  (g_path <$> workers s) ++ tasks (main_todo s) = tasks (snd (main dest fsys []))
  /\ Forall (fun g => g_pc g = Spawned \/ g_pc g = Returned (Some not_supported))
            (workers s)
  /\ (forall i g,
        exited s = None -> workers s !! i = Some g -> g_pc g = Spawned ->
        step FileCrc32 FileMd5Sum FileSha256 sign (RunWorker i) s
        = Some (set_worker i (Returned (Some not_supported)) s))
  /\ stdout s = [].
Proof.
  intros Hsign Hr.
  destruct (unsupported_stdout_empty _ _ _ _ _ _ _ Hsign Hr) as [Hws Hout].
  split.
  { rewrite (reachable_tasks _ _ _ _ _ _ Hr). by rewrite start_eq. }
  split; [done|]. split; [|done].
  intros i g Hex Hg Hpc. unfold step.
  by rewrite Hex, Hg, Hpc, (unsupported_select _ _ _ _ Hsign).
Qed.

(** The identifier [sha1] on the directory with two files, after the first
    worker has run. *)
Lemma unsupported_sign_witness :
  let s := {| main_todo := []; main_end := Normal tt;
              workers :=
                [ {| g_path := "/tmp/a.txt"; g_pc := Returned (Some not_supported) |};
                  {| g_path := "/tmp/b.txt"; g_pc := Spawned |} ];
              stdout := []; exited := None |} in
  supported "sha1" = false
  /\ reachable Sample.FileCrc32 Sample.FileMd5Sum Sample.FileSha256 "sha1"
       (start "/tmp" Sample.two_files) s
  /\ (g_path <$> workers s) ++ tasks (main_todo s) = ["/tmp/a.txt"; "/tmp/b.txt"]
  /\ Forall (fun g => g_pc g = Spawned \/ g_pc g = Returned (Some not_supported))
            (workers s)
  /\ (forall i g,
        exited s = None -> workers s !! i = Some g -> g_pc g = Spawned ->
        step Sample.FileCrc32 Sample.FileMd5Sum Sample.FileSha256 "sha1"
          (RunWorker i) s
        = Some (set_worker i (Returned (Some not_supported)) s))
  /\ stdout s = [].
Proof.
  intros s.
  assert (reachable Sample.FileCrc32 Sample.FileMd5Sum Sample.FileSha256 "sha1"
            (start "/tmp" Sample.two_files) s) as Hr.
  { exists [RunMain; RunMain; RunWorker 0]. reflexivity. }
  split; [reflexivity|]. split; [exact Hr|].
  exact (unsupported_sign_is_checked_by_each_worker
           Sample.FileCrc32 Sample.FileMd5Sum Sample.FileSha256
           "sha1" "/tmp" Sample.two_files s eq_refl Hr).
Defined.

(** C2, counterexample.  For the limit 1 and a directory with two files:
    after both [go] statements each worker enters its digest function, and
    two digest computations are in flight. *)
Lemma two_digests_in_flight :
  exists (N : nat) (s : process),
    1 <= N
    /\ Sample.run "crc" [RunMain; RunMain; RunWorker 0; RunWorker 1]
         (start "/tmp" Sample.two_files) = Some s
    /\ exited s = None
    /\ hashing_count s = 2
    /\ ~ hashing_count s <= N.
Proof.
  exists 1. eexists. split; [lia|]. split; [reflexivity|].
  split; [reflexivity|]. split; [reflexivity|].
  intros H. vm_compute in H. lia.
Qed.

(** C2, as the code has it.  The program has no concurrency limit.  Every
    task the walk emits gets a goroutine of its own at once, none is dropped
    and none waits for another; the digest computations in flight are
    bounded by the number of tasks only, and with a supported identifier
    there is a schedule in which all of them are in flight together. *)
Theorem hashing_is_bounded_by_the_tasks_only
  (FileCrc32 FileMd5Sum FileSha256 : hashfn) (sign dest : string) (fsys : entry) :
  (forall s,
     reachable FileCrc32 FileMd5Sum FileSha256 sign (start dest fsys) s ->
     (g_path <$> workers s) ++ tasks (main_todo s) = tasks (snd (main dest fsys []))
     /\ hashing_count s <= length (tasks (snd (main dest fsys []))))
  /\ (supported sign = true ->
      exists s,
        reachable FileCrc32 FileMd5Sum FileSha256 sign (start dest fsys) s
        /\ exited s = None
        /\ g_path <$> workers s = tasks (snd (main dest fsys []))
        /\ hashing_count s = length (tasks (snd (main dest fsys [])))).
Proof.
  split.
  - intros s Hr.
    assert ((g_path <$> workers s) ++ tasks (main_todo s)
            = tasks (snd (main dest fsys []))) as Htasks.
    { rewrite (reachable_tasks _ _ _ _ _ _ Hr). by rewrite start_eq. }
    split; [done|]. rewrite <- Htasks, length_app, length_fmap.
    unfold hashing_count.
    pose proof (length_filter (fun g => is_hashing g = true) (workers s)). lia.
  - intros Hsign.
    destruct (supported_select FileCrc32 FileMd5Sum FileSha256 sign Hsign)
      as [filehash Hsel].
    destruct (main_walks dest fsys) as (l & _ & _ & Hmain).
    rewrite Hmain. cbn. rewrite tasks_Go.
    eexists. split.
    { exists (replicate (length l) RunMain ++ (RunWorker <$> seq 0 (length l))).
      rewrite exec_app, start_eq, Hmain.
      rewrite (main_spawns_all _ _ _ _ l) by done. cbn.
      by rewrite (workers_select_all _ _ _ _ filehash l Hsel []). }
    cbn. split; [done|]. split.
    + rewrite <- list_fmap_compose. cbn. apply list_fmap_id.
    + apply (hashing_count_all filehash l [] (Normal tt) [] None).
Qed.

(** The identifier [crc] on the directory with two files. *)
Lemma hashing_bound_witness :
  let s := {| main_todo := []; main_end := Normal tt;
              workers :=
                [ {| g_path := "/tmp/a.txt"; g_pc := Hashing Sample.FileCrc32 |};
                  {| g_path := "/tmp/b.txt"; g_pc := Spawned |} ];
              stdout := []; exited := None |} in
  reachable Sample.FileCrc32 Sample.FileMd5Sum Sample.FileSha256 "crc"
    (start "/tmp" Sample.two_files) s
  /\ supported "crc" = true
  /\ hashing_count s <= 2
  /\ exists s',
       reachable Sample.FileCrc32 Sample.FileMd5Sum Sample.FileSha256 "crc"
         (start "/tmp" Sample.two_files) s'
       /\ hashing_count s' = 2.
Proof.
  intros s.
  assert (reachable Sample.FileCrc32 Sample.FileMd5Sum Sample.FileSha256 "crc"
            (start "/tmp" Sample.two_files) s) as Hr.
  { exists [RunMain; RunMain; RunWorker 0]. reflexivity. }
  destruct (hashing_is_bounded_by_the_tasks_only
              Sample.FileCrc32 Sample.FileMd5Sum Sample.FileSha256
              "crc" "/tmp" Sample.two_files) as [Hbound Hall].
  split; [exact Hr|]. split; [reflexivity|]. split.
  - exact (proj2 (Hbound s Hr)).
  - destruct (Hall eq_refl) as (s' & Hr' & _ & _ & Hcount).
    exists s'. split; [exact Hr' | exact Hcount].
Defined.

(** C3.  On a directory with the single file [a.txt], [main] returns as
    soon as the walk is over: in the run where the scheduler lets it go
    first, the process exits with status 0 while the worker for [a.txt] has
    not run and has produced no outcome. *)
Theorem main_exits_without_waiting :
  lstat_ok Sample.one_file = true
  /\ Sample.run "md5" [RunMain; RunMain] (start "/tmp" Sample.one_file)
     = Some {| main_todo := [];
               main_end := Normal tt;
               workers := [ {| g_path := "/tmp/a.txt"; g_pc := Spawned |} ];
               stdout := [];
               exited := Some 0%Z |}
  /\ step Sample.FileCrc32 Sample.FileMd5Sum Sample.FileSha256 "md5" (RunWorker 0)
       {| main_todo := [];
          main_end := Normal tt;
          workers := [ {| g_path := "/tmp/a.txt"; g_pc := Spawned |} ];
          stdout := [];
          exited := Some 0%Z |}
     = None.
Proof. repeat split. Qed.




(** C5.  When the digest function fails on the file of worker [i], the
    worker's step writes the error, returns it and changes nothing else:
    the process goes on, the main goroutine and every other worker are as
    they were, and whatever they could do before the failure they can do
    after it, with the same effect. *)
Theorem read_failure_is_confined_to_its_worker
  (FileCrc32 FileMd5Sum FileSha256 : hashfn) (sign : string)
  (s : process) (i : nat) (g : goroutine) (filehash : hashfn)
  (cs : string) (e : error) :
  exited s = None ->
  workers s !! i = Some g ->
  g_pc g = Hashing filehash ->
  filehash (g_path g) = (cs, Some e) ->
  exists s',
    step FileCrc32 FileMd5Sum FileSha256 sign (RunWorker i) s = Some s'
    /\ workers s' !! i = Some {| g_path := g_path g; g_pc := Returned (Some e) |}
    /\ stdout s' = stdout s ++ [{| w_by := Some i; w_text := "Error: " +:+ Error e |}]
    /\ exited s' = None
    /\ others_agree i s s'
    /\ (forall sched t,
          Forall (fun c => c <> RunWorker i) sched ->
          exec FileCrc32 FileMd5Sum FileSha256 sign sched s = Some t ->
          exists t',
            exec FileCrc32 FileMd5Sum FileSha256 sign sched s' = Some t'
            /\ others_agree i t t').
Proof.
  intros Hex Hg Hpc Hfail.
  assert (others_agree i s
            (set_worker i (Returned (Some e))
               (emit (Some i) (Printf ("Error: " +:+ Error e)) s))) as Hag.
  { rewrite (set_worker_emit_eq _ _ _ _ _ _ Hg).
    unfold others_agree; cbn. repeat split; try done.
    - by rewrite length_insert.
    - intros j Hj. by rewrite list_lookup_insert_ne.
    - rewrite filter_app. cbn. case_decide as Hn; [done|]. by rewrite app_nil_r. }
  exists (set_worker i (Returned (Some e))
            (emit (Some i) (Printf ("Error: " +:+ Error e)) s)).
  split.
  { unfold step. rewrite Hex, Hg, Hpc, hash_and_report_eq.
    unfold report. rewrite Hfail. reflexivity. }
  split.
  { rewrite (set_worker_emit_eq _ _ _ _ _ _ Hg). cbn.
    apply list_lookup_insert_eq. by eapply lookup_lt_Some. }
  split; [by rewrite (set_worker_emit_eq _ _ _ _ _ _ Hg)|].
  split; [by rewrite (set_worker_emit_eq _ _ _ _ _ _ Hg)|].
  split; [done|].
  intros sched t Hsched Hrun. by eapply exec_local.
Qed.

(** The worker of the unreadable [/tmp/locked.txt] fails while the worker
    of [/tmp/a.txt] is inside its digest call; that one then completes. *)
Lemma read_failure_witness :
  let s := {| main_todo := []; main_end := Normal tt;
              workers :=
                [ {| g_path := "/tmp/a.txt"; g_pc := Hashing Sample.FileCrc32 |};
                  {| g_path := "/tmp/locked.txt"; g_pc := Hashing Sample.FileCrc32 |} ];
              stdout := []; exited := None |} in
  let s' := {| main_todo := []; main_end := Normal tt;
               workers :=
                 [ {| g_path := "/tmp/a.txt"; g_pc := Hashing Sample.FileCrc32 |};
                   {| g_path := "/tmp/locked.txt";
                      g_pc := Returned (Some (Sample.denied "/tmp/locked.txt")) |} ];
               stdout := [ {| w_by := Some 1;
                              w_text := "Error: open /tmp/locked.txt: permission denied" |} ];
               exited := None |} in
  Sample.run "crc" [RunMain; RunMain; RunWorker 0; RunWorker 1]
    (start "/tmp" Sample.with_locked) = Some s
  /\ Sample.FileCrc32 "/tmp/locked.txt" = ("", Some (Sample.denied "/tmp/locked.txt"))
  /\ Sample.run "crc" [RunWorker 1] s = Some s'
  /\ exists t',
       Sample.run "crc" [RunWorker 0; RunMain] s' = Some t'
       /\ workers t' !! 0 = Some {| g_path := "/tmp/a.txt"; g_pc := Returned None |}.
Proof.
  intros s s'.
  destruct (read_failure_is_confined_to_its_worker
              Sample.FileCrc32 Sample.FileMd5Sum Sample.FileSha256 "crc"
              s 1 {| g_path := "/tmp/locked.txt"; g_pc := Hashing Sample.FileCrc32 |}
              Sample.FileCrc32 "" (Sample.denied "/tmp/locked.txt")
              eq_refl eq_refl eq_refl eq_refl)
    as (s1 & Hstep & Hi & Hout & Hex & Hag & Hothers).
  injection Hstep as <-.
  split; [reflexivity|]. split; [reflexivity|]. split; [reflexivity|].
  destruct (Hothers [RunWorker 0; RunMain]
              {| main_todo := []; main_end := Normal tt;
                 workers :=
                   [ {| g_path := "/tmp/a.txt"; g_pc := Returned None |};
                     {| g_path := "/tmp/locked.txt"; g_pc := Hashing Sample.FileCrc32 |} ];
                 stdout := [ {| w_by := Some 0;
                                w_text := "/tmp/a.txt :: 3610a686" +:+ LF |} ];
                 exited := Some 0%Z |})
    as (t' & Hrun & (_ & _ & _ & _ & Hws & _)).
  { repeat constructor; discriminate. }
  { reflexivity. }
  exists t'. split; [exact Hrun|]. exact (Hws 0 ltac:(discriminate)).
Defined.

(** C6, counterexample.  With the unrecognised identifier [sha1] the
    process ends with exit status 0; so it does when the root cannot be
    listed, and when the root is a regular file. *)
Lemma unrecognised_sign_exits_zero :
  supported "sha1" = false
  /\ (exited <$> Sample.run "sha1" [RunMain; RunWorker 0; RunMain]
                   (start "/tmp" Sample.one_file)) = Some (Some 0%Z)
  /\ (exited <$> Sample.run "md5" [RunMain]
                   (start "/root" (Directory "root"
                                     (Some (Sample.denied "/root")) [])))
     = Some (Some 0%Z)
  /\ (exited <$> Sample.run "md5" [RunMain; RunMain]
                   (start "/tmp/a.txt" (File "a.txt" Regular)))
     = Some (Some 0%Z).
Proof. repeat split. Qed.

(** C6, as the code has it.  The program never sets an exit status.
    Whenever every [Lstat] of the walk succeeds, whatever the algorithm
    identifier is and whether or not the root can be listed or is a
    directory at all, [main] returns normally: a run that has ended has
    ended with exit status 0. *)
Theorem exit_status_zero_when_main_returns
  (FileCrc32 FileMd5Sum FileSha256 : hashfn) (sign dest : string)
  (fsys : entry) (s : process) :
  lstat_ok fsys = true ->
  reachable FileCrc32 FileMd5Sum FileSha256 sign (start dest fsys) s ->
  main_end s = Normal tt /\ (exited s = None \/ exited s = Some 0%Z).
Proof.
  intros Hok Hr.
  destruct (main_walks dest fsys) as (l & _ & _ & Hmain). rewrite Hok in Hmain.
  assert (main_end (start dest fsys) = Normal tt) as Hend
    by (by rewrite start_eq, Hmain).
  split.
  - by rewrite (reachable_main_end _ _ _ _ _ _ Hr).
  - destruct (reachable_exited FileCrc32 FileMd5Sum FileSha256 sign
                (start dest fsys) s) as [H|H]; [by rewrite start_eq | done | by left |].
    right. by rewrite H, Hend.
Qed.

(** The identifier [sha1] on the directory with two files, run to the end
    of [main]. *)
Lemma exit_status_zero_witness :
  let s := {| main_todo := []; main_end := Normal tt;
              workers :=
                [ {| g_path := "/tmp/a.txt"; g_pc := Returned (Some not_supported) |};
                  {| g_path := "/tmp/b.txt"; g_pc := Spawned |} ];
              stdout := []; exited := Some 0%Z |} in
  lstat_ok Sample.two_files = true
  /\ reachable Sample.FileCrc32 Sample.FileMd5Sum Sample.FileSha256 "sha1"
       (start "/tmp" Sample.two_files) s
  /\ main_end s = Normal tt
  /\ (exited s = None \/ exited s = Some 0%Z).
Proof.
  intros s.
  assert (reachable Sample.FileCrc32 Sample.FileMd5Sum Sample.FileSha256 "sha1"
            (start "/tmp" Sample.two_files) s) as Hr.
  { exists [RunMain; RunMain; RunWorker 0; RunMain]. reflexivity. }
  split; [reflexivity|]. split; [exact Hr|].
  exact (exit_status_zero_when_main_returns
           Sample.FileCrc32 Sample.FileMd5Sum Sample.FileSha256
           "sha1" "/tmp" Sample.two_files s eq_refl Hr).
Defined.

(** C7.  A successful worker writes [<path> :: <digest>] and a line feed.
    A failed worker writes [Error: ] and the message of the error, without
    the path and without a line feed: on the unreadable [/tmp/locked.txt]
    what it writes is not a line, and the success line of [/tmp/a.txt]
    written next continues it. *)
Theorem failure_report_is_not_a_line :
  (forall cs filePath tr,
     hash_and_report (fun _ => (cs, None)) filePath tr
     = (Normal None, tr ++ [Printf (filePath +:+ " :: " +:+ cs +:+ LF)]))
  /\ (forall cs e filePath tr,
        hash_and_report (fun _ => (cs, Some e)) filePath tr
        = (Normal (Some e), tr ++ [Printf ("Error: " +:+ Error e)]))
  /\ checksumWorker Sample.FileCrc32 Sample.FileMd5Sum Sample.FileSha256 "crc"
       "/tmp/locked.txt" []
     = (Normal (Some (Sample.denied "/tmp/locked.txt")),
        [Printf "Error: open /tmp/locked.txt: permission denied"])
  /\ is_one_line "Error: open /tmp/locked.txt: permission denied" = false
  /\ is_one_line ("/tmp/a.txt :: 3610a686" +:+ LF) = true
  /\ (stdout_text <$>
        Sample.run "crc"
          [RunMain; RunMain; RunWorker 0; RunWorker 1; RunWorker 1; RunWorker 0]
          (start "/tmp" Sample.with_locked))
     = Some ("Error: open /tmp/locked.txt: permission denied/tmp/a.txt :: 3610a686"
             +:+ LF).
Proof. repeat split. Qed.



(** C9.  Two runs over the same directory, holding the single file [a.txt],
    with the same algorithm: in one the worker finishes before [main]
    returns and its success line is written; in the other [main] returns
    first and nothing is written.  Both runs are complete.  (Runs in which
    every worker gets to return do agree, see [drained_runs_agree].) *)
Theorem two_runs_of_one_tree_differ :
  exists s1 s2,
    Sample.run "crc" [RunMain; RunWorker 0; RunWorker 0; RunMain]
      (start "/tmp" Sample.one_file) = Some s1
    /\ Sample.run "crc" [RunMain; RunMain] (start "/tmp" Sample.one_file) = Some s2
    /\ exited s1 = Some 0%Z
    /\ exited s2 = Some 0%Z
    /\ stdout_text s1 = "/tmp/a.txt :: 3610a686" +:+ LF
    /\ stdout_text s2 = "".
Proof. do 2 eexists. repeat split. Qed.

(** A directory that cannot be listed is handed to [walkWith] with its file
    info and the listing error: the callback returns nil, the directory is
    passed over and nothing is reported. *)
Lemma unlistable_directory_is_skipped :
  (forall path n rerr children tr,
     walk path (Directory n (Some rerr) children) walkWith tr = (Normal None, tr))
  /\ main "/root" (Directory "root" (Some (Sample.denied "/root")) []) []
     = (Normal tt, []).
Proof. split; reflexivity. Qed.

(** C10.  [walkWith] never reads its [err] argument and calls [IsDir] on
    [info] whatever it is: whenever [filepath.Walk] hands it a nil file info
    (together with the error of the failed [Lstat]), at the root or for a
    name inside a directory, the call panics on the nil dereference; no
    worker is started for that entry and the error is not printed.  So a
    walk that meets a failing [Lstat] ends [main] in that panic, having
    performed [go] statements only. *)
Theorem walkWith_panics_on_nil_info :
  (forall path err tr, walkWith path None err tr = (Panic nil_dereference, tr))
  /\ (forall path info err err' tr,
        walkWith path info err tr = walkWith path info err' tr)
  /\ (forall root n lerr tr,
        Walk root (Missing n lerr) walkWith tr = (Panic nil_dereference, tr))
  /\ (forall path n m lerr rest tr,
        walk path (Directory n None (Missing m lerr :: rest)) walkWith tr
        = (Panic nil_dereference, tr))
  /\ (forall dest fsys,
        lstat_ok fsys = false ->
        fst (main dest fsys []) = Panic nil_dereference
        /\ forall e, In e (snd (main dest fsys [])) -> exists p, e = Go p).
Proof.
  do 4 (split; [reflexivity|]).
  intros dest fsys Hlstat.
  destruct (main_walks dest fsys) as (l & _ & _ & Hmain).
  rewrite Hmain, Hlstat. cbn. split; [done|].
  intros e He.
  apply list_elem_of_In, list_elem_of_fmap in He as (p & -> & _). by exists p.
Qed.

(** A name that vanished after the listing, and a root that does not
    exist. *)
Lemma walkWith_panics_witness :
  lstat_ok Sample.vanished = false
  /\ main "/tmp" Sample.vanished [] = (Panic nil_dereference, [Go "/tmp/a.txt"])
  /\ main "/nowhere" Sample.no_root [] = (Panic nil_dereference, [])
  /\ fst (main "/tmp" Sample.vanished []) = Panic nil_dereference
  /\ forall e, In e (snd (main "/tmp" Sample.vanished [])) -> exists p, e = Go p.
Proof.
  split; [reflexivity|]. split; [reflexivity|]. split; [reflexivity|].
  exact (proj2 (proj2 (proj2 (proj2 walkWith_panics_on_nil_info)))
           "/tmp" Sample.vanished eq_refl).
Defined.

(** * Further properties of the checksum tool *)

Lemma Walk_walkWith dest fsys tr :
  exists l,
    Walk dest fsys walkWith tr
    = (if lstat_ok fsys then Normal None else Panic nil_dereference,
       tr ++ (Go <$> l)).
Proof.
  destruct fsys as [n k | n rerr children | n err].
  - destruct (walk_walkWith (File n k) dest tr) as (l & _ & _ & Hwalk).
    exists l. unfold Walk, bind. by rewrite Hwalk.
  - destruct (walk_walkWith (Directory n rerr children) dest tr)
      as (l & _ & _ & Hwalk).
    exists l. unfold Walk, bind. rewrite Hwalk.
    by destruct (lstat_ok (Directory n rerr children)).
  - exists []. by rewrite app_nil_r.
Qed.

(** X10.  [filepath.Walk] with [walkWith] as its callback never returns an
    error: it returns nil or the callback panics.  So the branch of [main]
    that prints [Error : ...] is never taken; whatever the tree, all [main]
    does is start workers.  In particular a directory that cannot be listed
    is passed over without a word. *)
Theorem main_never_reports_an_error (dest : string) (fsys : entry) :
  (forall tr,
     fst (Walk dest fsys walkWith tr) = Normal None
     \/ fst (Walk dest fsys walkWith tr) = Panic nil_dereference)
  /\ (forall e, In e (snd (main dest fsys [])) -> exists p, e = Go p)
  /\ (forall text, ~ In (Printf text) (snd (main dest fsys []))).
Proof.
  assert (forall e, In e (snd (main dest fsys [])) -> exists p, e = Go p) as Hgo.
  { destruct (main_walks dest fsys) as (l & _ & _ & Hmain).
    rewrite Hmain. cbn. intros e He.
    apply list_elem_of_In, list_elem_of_fmap in He as (p & -> & _). by exists p. }
  split; [|split; [done|]].
  - intros tr. destruct (Walk_walkWith dest fsys tr) as [l ->].
    destruct (lstat_ok fsys); [by left | by right].
  - intros text H. by destruct (Hgo _ H).
Qed.

Lemma regular_files_sublist e :
  forall path, regular_files path e `sublist_of` non_directories path e.
Proof.
  induction e as [n k | n err | n rerr children IH] using entry_nested_ind;
    intros path.
  - destruct k; cbn; [done | by apply sublist_nil_l ..].
  - done.
  - destruct rerr as [rerr|]; [done|]. cbn.
    induction IH as [|c rest Hc _ IHrest]; [done|].
    by apply sublist_app.
Qed.

(** X11.  No regular file is missed: when every [Lstat] of the walk
    succeeds, the regular files below the root, directories that cannot be
    listed apart, are all among the tasks handed to workers, in walk
    order. *)
Theorem every_regular_file_gets_a_worker (dest : string) (fsys : entry) :
  lstat_ok fsys = true ->
  regular_files dest fsys `sublist_of` tasks (snd (main dest fsys [])).
Proof.
  intros Hok. destruct (main_walks dest fsys) as (l & _ & Hall & Hmain).
  rewrite Hmain, (Hall Hok). cbn. rewrite tasks_Go. apply regular_files_sublist.
Qed.

(** The directory with a regular file, a link, a pipe and a sub-directory. *)
Lemma every_regular_file_gets_a_worker_witness :
  lstat_ok Sample.with_link = true
  /\ ["/tmp/b.txt"] `sublist_of` tasks (snd (main "/tmp" Sample.with_link [])).
Proof.
  split; [reflexivity|].
  exact (every_regular_file_gets_a_worker "/tmp" Sample.with_link eq_refl).
Defined.

(** X12.  At every moment of a run with a supported identifier, standard
    output holds exactly one report for each worker that has returned and
    none for the others, in some order: no worker reports twice, and none
    returns without its report. *)
Theorem one_report_per_returned_worker
  (FileCrc32 FileMd5Sum FileSha256 : hashfn) (sign dest : string)
  (fsys : entry) (filehash : hashfn) (s : process) :
  select_filehash FileCrc32 FileMd5Sum FileSha256 sign = inl filehash ->
  reachable FileCrc32 FileMd5Sum FileSha256 sign (start dest fsys) s ->
  w_text <$> stdout s
  ≡ₚ (fun g => report filehash (g_path g))
       <$> filter (fun g => has_returned g = true) (workers s).
Proof.
  intros Hsel Hr.
  by destruct (reachable_reports _ _ _ _ _ Hsel _ _ _ Hr) as (_ & _ & H).
Qed.

(** Two files, the worker of the second has returned, the first is still
    inside its digest call. *)
Lemma one_report_per_returned_worker_witness :
  let s := {| main_todo := []; main_end := Normal tt;
              workers :=
                [ {| g_path := "/tmp/a.txt"; g_pc := Hashing Sample.FileCrc32 |};
                  {| g_path := "/tmp/b.txt"; g_pc := Returned None |} ];
              stdout := [ {| w_by := Some 1;
                             w_text := "/tmp/b.txt :: 3a771143" +:+ LF |} ];
              exited := None |} in
  Sample.run "crc" [RunMain; RunMain; RunWorker 0; RunWorker 1; RunWorker 1]
    (start "/tmp" Sample.two_files) = Some s
  /\ w_text <$> stdout s ≡ₚ [report Sample.FileCrc32 "/tmp/b.txt"].
Proof.
  intros s. split; [reflexivity|].
  apply (one_report_per_returned_worker
           Sample.FileCrc32 Sample.FileMd5Sum Sample.FileSha256
           "crc" "/tmp" Sample.two_files Sample.FileCrc32 s eq_refl).
  exists [RunMain; RunMain; RunWorker 0; RunWorker 1; RunWorker 1]. reflexivity.
Defined.



(** X14.  The exit status of a run that has ended is decided by the tree
    alone: 0 when every [Lstat] of the walk succeeds, 2 (the panic of the
    nil dereference) when one fails; the identifier, the digest functions
    and the schedule play no part. *)
Theorem exit_status_is_decided_by_the_walk
  (FileCrc32 FileMd5Sum FileSha256 : hashfn) (sign dest : string)
  (fsys : entry) (s : process) (code : Z) :
  reachable FileCrc32 FileMd5Sum FileSha256 sign (start dest fsys) s ->
  exited s = Some code ->
  code = if lstat_ok fsys then 0%Z else 2%Z.
Proof.
  intros Hr Hex.
  destruct (main_walks dest fsys) as (l & _ & _ & Hmain).
  destruct (reachable_exited FileCrc32 FileMd5Sum FileSha256 sign
              (start dest fsys) s) as [H|H];
    [by rewrite start_eq | done | congruence |].
  rewrite H, start_eq, Hmain in Hex. cbn in Hex.
  destruct (lstat_ok fsys); cbn in Hex; congruence.
Qed.

(** A name that vanished after the listing: the run ends with status 2. *)
Lemma exit_status_is_decided_by_the_walk_witness :
  Sample.run "md5" [RunMain; RunWorker 0; RunMain] (start "/tmp" Sample.vanished)
  = Some {| main_todo := []; main_end := Panic nil_dereference;
            workers := [ {| g_path := "/tmp/a.txt";
                            g_pc := Hashing Sample.FileMd5Sum |} ];
            stdout := []; exited := Some 2%Z |}
  /\ lstat_ok Sample.vanished = false
  /\ 2%Z = (if lstat_ok Sample.vanished then 0%Z else 2%Z).
Proof.
  split; [reflexivity|]. split; [reflexivity|].
  apply (exit_status_is_decided_by_the_walk
           Sample.FileCrc32 Sample.FileMd5Sum Sample.FileSha256
           "md5" "/tmp" Sample.vanished
           {| main_todo := []; main_end := Panic nil_dereference;
              workers := [ {| g_path := "/tmp/a.txt";
                              g_pc := Hashing Sample.FileMd5Sum |} ];
              stdout := []; exited := Some 2%Z |} 2%Z).
  - exists [RunMain; RunWorker 0; RunMain]. reflexivity.
  - reflexivity.
Defined.

(** * Further properties of the account package *)

(** ** Strings *)

Lemma str_app_nil_l (s : string) : "" +:+ s = s.
Proof. reflexivity. Qed.

Lemma str_app_cons c (a b : string) : String c a +:+ b = String c (a +:+ b).
Proof. reflexivity. Qed.

Lemma str_app_nil_r (s : string) : s +:+ "" = s.
Proof.
  induction s as [|c s IH]; [done|]. by rewrite str_app_cons, IH.
Qed.

Lemma str_app_assoc (a b c : string) : (a +:+ b) +:+ c = a +:+ (b +:+ c).
Proof.
  induction a as [|x a IH]; [done|]. by rewrite !str_app_cons, IH.
Qed.

Lemma str_app_length (a b : string) :
  String.length (a +:+ b) = String.length a + String.length b.
Proof.
  induction a as [|x a IH]; [done|]. rewrite str_app_cons. cbn. by rewrite IH.
Qed.

Lemma str_app_chars (a b : string) :
  String.list_ascii_of_string (a +:+ b)
  = String.list_ascii_of_string a ++ String.list_ascii_of_string b.
Proof.
  induction a as [|x a IH]; [done|]. rewrite str_app_cons. cbn. by rewrite IH.
Qed.

(** ** [strings.Split] with a separator of one byte *)

Lemma Split_not_empty s sep : Users.Split s sep <> [].
Proof.
  destruct s as [|c s]; cbn; [done|].
  destruct (Ascii.eqb c sep); [done|]. by destruct (Users.Split s sep).
Qed.

(** The first part holds no separator, and is followed in [s] by nothing or
    by a separator. *)
Lemma Split_first s sep :
  exists part0 parts,
    Users.Split s sep = part0 :: parts
    /\ ~ In sep (String.list_ascii_of_string part0)
    /\ (s = part0 \/ exists rest, s = part0 +:+ String sep rest).
Proof.
  induction s as [|c s (p & ps & Hs & Hno & Hcut)]; cbn.
  - exists "", []. split; [done|]. split; [by intros []|]. by left.
  - destruct (Ascii.eqb_spec c sep) as [->|Hc].
    + exists "", (Users.Split s sep). split; [done|]. split; [by intros []|].
      right. by exists s.
    + rewrite Hs. exists (String c p), ps. split; [done|]. split.
      * cbn. intros [H|H]; [by apply Hc | by apply Hno].
      * destruct Hcut as [->|[rest ->]]; [by left|]. right. by exists rest.
Qed.

Lemma Split_before_separator part0 sep rest :
  ~ In sep (String.list_ascii_of_string part0) ->
  Users.Split (part0 +:+ String sep rest) sep = part0 :: Users.Split rest sep.
Proof.
  induction part0 as [|c p IH]; intros Hno.
  - rewrite str_app_nil_l. cbn. by rewrite Ascii.eqb_refl.
  - rewrite str_app_cons. cbn [Users.Split].
    destruct (Ascii.eqb_spec c sep) as [->|Hc]; [by destruct Hno; left|].
    rewrite IH; [done|]. intros H. apply Hno. by right.
Qed.

(** ** The scanner *)

Lemma dropCR_chars s c :
  In c (String.list_ascii_of_string (Users.dropCR s)) ->
  In c (String.list_ascii_of_string s).
Proof.
  induction s as [|x s IH]; [done|].
  destruct s as [|y s].
  - cbn. by destruct (Users.is_CR x).
  - change (Users.dropCR (String x (String y s)))
      with (String x (Users.dropCR (String y s))).
    cbn [String.list_ascii_of_string]. intros [H|H]; [by left|].
    right. by apply IH.
Qed.

Lemma dropCR_length s :
  String.length (Users.dropCR s) <= String.length s.
Proof.
  induction s as [|x s IH]; [done|].
  destruct s as [|y s].
  - cbn. destruct (Users.is_CR x); cbn; lia.
  - change (Users.dropCR (String x (String y s)))
      with (String x (Users.dropCR (String y s))).
    cbn [String.length] in *. lia.
Qed.

(** [dropCR] leaves what precedes a colon alone. *)
Lemma dropCR_after_colon name rest :
  exists rest',
    Users.dropCR (name +:+ String Users.colon rest)
    = name +:+ String Users.colon rest'.
Proof.
  induction name as [|c name [rest' IH]].
  - destruct rest as [|y rest].
    + by exists "".
    + exists (Users.dropCR (String y rest)). reflexivity.
  - exists rest'. rewrite !str_app_cons.
    destruct (name +:+ String Users.colon rest) as [|y t] eqn:Ht.
    { by destruct name. }
    change (Users.dropCR (String c (String y t)))
      with (String c (Users.dropCR (String y t))).
    by rewrite IH.
Qed.

Lemma is_LF_false c : c <> Users.linefeed -> Users.is_LF c = false.
Proof. intros H. by apply Ascii.eqb_neq. Qed.

(** A line that fits the buffer is delivered when its line feed is read. *)
Lemma scan_line l :
  forall data line n,
    ~ In Users.linefeed (String.list_ascii_of_string l) ->
    n = N.of_nat (String.length line) ->
    (N.of_nat (String.length line + String.length l) < Users.MaxScanTokenSize)%N ->
    Users.scan (l +:+ String Users.linefeed data) line n
    = Users.dropCR (line +:+ l) :: Users.scan data "" 0.
Proof.
  induction l as [|c l IH]; intros data line n Hno Hn Hfit.
  - rewrite str_app_nil_r, str_app_nil_l. cbn.
    unfold Users.is_LF. by rewrite Ascii.eqb_refl.
  - rewrite str_app_cons. cbn [Users.scan].
    rewrite is_LF_false by (intros ->; apply Hno; by left).
    cbn [String.length] in Hfit.
    destruct (N.eqb_spec (N.succ n) Users.MaxScanTokenSize) as [Heq|_]; [lia|].
    rewrite IH.
    + by rewrite str_app_assoc.
    + intros H. apply Hno. by right.
    + rewrite str_app_length. cbn. lia.
    + rewrite str_app_length. cbn. lia.
Qed.

(** A line that fills the buffer before its line feed ends the scan. *)
Lemma scan_too_long l :
  forall data line n,
    ~ In Users.linefeed (String.list_ascii_of_string l) ->
    (n < Users.MaxScanTokenSize)%N ->
    (Users.MaxScanTokenSize <= n + N.of_nat (String.length l))%N ->
    Users.scan (l +:+ data) line n = [].
Proof.
  induction l as [|c l IH]; intros data line n Hno Hn Hlong.
  - cbn in Hlong. lia.
  - rewrite str_app_cons. cbn [Users.scan].
    rewrite is_LF_false by (intros ->; apply Hno; by left).
    destruct (N.eqb_spec (N.succ n) Users.MaxScanTokenSize) as [Heq|Hne]; [done|].
    apply IH.
    + intros H. apply Hno. by right.
    + lia.
    + cbn [String.length] in Hlong. lia.
Qed.

(** No token of the scanner holds a line feed, and every token fits the
    buffer. *)
Lemma scan_tokens data :
  forall line n,
    ~ In Users.linefeed (String.list_ascii_of_string line) ->
    n = N.of_nat (String.length line) ->
    (n < Users.MaxScanTokenSize)%N ->
    Forall (fun l => ~ In Users.linefeed (String.list_ascii_of_string l)
                     /\ (N.of_nat (String.length l) < Users.MaxScanTokenSize)%N)
           (Users.scan data line n).
Proof.
  induction data as [|c data IH]; intros line n Hno Hn Hfit; cbn.
  - destruct (n =? 0)%N; [constructor|]. constructor; [|constructor]. split.
    + intros H. by apply Hno, dropCR_chars.
    + pose proof (dropCR_length line). lia.
  - destruct (Ascii.eqb_spec c Users.linefeed) as [->|Hc].
    + unfold Users.is_LF. rewrite Ascii.eqb_refl. constructor.
      * split.
        -- intros H. by apply Hno, dropCR_chars.
        -- pose proof (dropCR_length line). lia.
      * apply IH; [by intros [] | done | done].
    + rewrite is_LF_false by done.
      destruct (N.eqb_spec (N.succ n) Users.MaxScanTokenSize) as [Heq|Hne];
        [constructor|].
      apply IH.
      * rewrite str_app_chars. cbn. intros H.
        apply in_app_or in H as [H|[H|[]]]; [by apply Hno | by apply Hc].
      * rewrite str_app_length. cbn. lia.
      * lia.
Qed.

Lemma scan_passwd_text entries tail :
  Forall Users.well_formed entries ->
  Users.scan (Users.passwd_text entries +:+ tail) "" 0
  = ((fun e => Users.dropCR (fst e +:+ String Users.colon (snd e))) <$> entries)
    ++ Users.scan tail "" 0.
Proof.
  induction 1 as [|[name rest] entries (Hc & Hn & Hr & Hfit) _ IH]; [done|].
  cbn [Users.passwd_text fst snd] in *.
  rewrite !str_app_assoc.
  change (String Users.colon rest
          +:+ String Users.linefeed (Users.passwd_text entries) +:+ tail)
    with (String Users.colon rest
          +:+ (String Users.linefeed (Users.passwd_text entries) +:+ tail)).
  rewrite <- str_app_assoc, str_app_cons.
  rewrite scan_line.
  - cbn. by rewrite IH.
  - rewrite str_app_chars. cbn. intros H.
    apply in_app_or in H as [H|[H|H]]; [by apply Hn | done | by apply Hr].
  - done.
  - done.
Qed.

(** ** [ReadEtcPasswd] *)

Lemma first_fields_spec lines :
  forall ulist,
    exists names,
      Users.first_fields lines ulist = Normal (ulist ++ names)
      /\ Forall2 Users.is_first_field lines names.
Proof.
  induction lines as [|line lines IH]; intros ulist.
  - exists []. split; [by rewrite app_nil_r | constructor].
  - destruct (Split_first line Users.colon) as (p & ps & Hs & Hno & Hcut).
    destruct (IH (ulist ++ [p])) as (names & Hrun & Hall).
    exists (p :: names). cbn. rewrite Hs, Hrun. split.
    + by rewrite <- app_assoc.
    + constructor; [by split | done].
Qed.

Lemma first_fields_entries entries :
  Forall Users.well_formed entries ->
  forall ulist,
    Users.first_fields
      ((fun e => Users.dropCR (fst e +:+ String Users.colon (snd e))) <$> entries)
      ulist
    = Normal (ulist ++ (fst <$> entries)).
Proof.
  induction 1 as [|[name rest] entries (Hc & _) _ IH]; intros ulist.
  - by rewrite app_nil_r.
  - cbn [fmap list_fmap fst snd Users.first_fields] in *.
    destruct (dropCR_after_colon name rest) as [rest' ->].
    rewrite Split_before_separator by done.
    rewrite IH. by rewrite <- app_assoc.
Qed.

Lemma first_field_chars line name c :
  Users.is_first_field line name ->
  In c (String.list_ascii_of_string name) ->
  In c (String.list_ascii_of_string line).
Proof.
  intros [_ [->|[rest ->]]] H; [done|].
  rewrite str_app_chars. apply in_or_app. by left.
Qed.

(** X1.  [ReadEtcPasswd] never panics on [parts[0]] and reports an error
    only when the file cannot be opened.  Once the file is open it returns
    one name per line the scanner delivers, in order: the text of the line
    before its first colon, or the whole line when it has no colon (so the
    empty name for a blank line).  No name holds a colon or a line feed. *)
Theorem ReadEtcPasswd_first_fields (host : Users.Host) (f : string) :
  match Users.os_Open host f with
  | inr err => Users.ReadEtcPasswd host f = Normal (inr err)
  | inl file =>
      exists names,
        Users.ReadEtcPasswd host f = Normal (inl names)
        /\ Forall2 Users.is_first_field (Users.Scanner_Text file) names
        /\ Forall (fun name =>
                     ~ In Users.colon (String.list_ascii_of_string name)
                     /\ ~ In Users.linefeed (String.list_ascii_of_string name))
                  names
  end.
Proof.
  unfold Users.ReadEtcPasswd.
  destruct (Users.os_Open host f) as [file|err]; [|done].
  destruct (first_fields_spec (Users.Scanner_Text file) [])
    as (names & Hrun & Hall).
  exists names. rewrite Hrun. split; [done|]. split; [done|].
  assert (Forall (fun l => ~ In Users.linefeed (String.list_ascii_of_string l)
                           /\ (N.of_nat (String.length l)
                               < Users.MaxScanTokenSize)%N)
                 (Users.Scanner_Text file)) as Hlines.
  { apply scan_tokens; [by intros [] | done | done]. }
  revert Hlines. clear Hrun.
  induction Hall as [|line name lines names Hfield _ IH]; intros Hlines;
    [constructor|].
  apply Forall_cons in Hlines as [[Hlf _] Hlines].
  constructor; [|by apply IH]. split; [by destruct Hfield|].
  intros H. by apply Hlf, (first_field_chars line name).
Qed.

(** X2.  Reading back a password file: when the file holds one line
    [name:rest] per entry, with names free of colons and line feeds, other
    fields free of line feeds and lines that fit the scanner's buffer,
    [ReadEtcPasswd] returns exactly the names, in order. *)
Theorem ReadEtcPasswd_of_passwd_text
  (host : Users.Host) (f : string) (file : Users.OpenFile)
  (entries : list (string * string)) :
  Users.os_Open host f = inl file ->
  Users.contents file = Users.passwd_text entries ->
  Forall Users.well_formed entries ->
  Users.ReadEtcPasswd host f = Normal (inl (fst <$> entries)).
Proof.
  intros Hopen Htext Hwf. unfold Users.ReadEtcPasswd, Users.Scanner_Text.
  rewrite Hopen, Htext, <- (str_app_nil_r (Users.passwd_text entries)).
  rewrite scan_passwd_text by done. cbn [Users.scan N.eqb].
  rewrite app_nil_r. by rewrite first_fields_entries.
Qed.

Local Ltac no_such_byte := vm_compute; intuition discriminate.
Local Ltac well_formed_entry :=
  split; [no_such_byte | split; [no_such_byte | split; [no_such_byte | reflexivity]]].

(** The sample password file, entry by entry. *)
Lemma ReadEtcPasswd_of_passwd_text_witness :
  Users.os_Open Machine.host "/etc/passwd"
  = inl {| Users.contents := Machine.passwd; Users.read_error := None |}
  /\ Machine.passwd
     = Users.passwd_text [("root", "x:0:0:root:/root:/bin/bash");
                          ("daemon", "x:1:1:daemon:/usr/sbin:/usr/sbin/nologin")]
  /\ Users.ReadEtcPasswd Machine.host "/etc/passwd" = Normal (inl ["root"; "daemon"]).
Proof.
  split; [reflexivity|]. split; [reflexivity|].
  apply (ReadEtcPasswd_of_passwd_text Machine.host "/etc/passwd"
           {| Users.contents := Machine.passwd; Users.read_error := None |}
           [("root", "x:0:0:root:/root:/bin/bash");
            ("daemon", "x:1:1:daemon:/usr/sbin:/usr/sbin/nologin")]).
  - reflexivity.
  - reflexivity.
  - repeat (constructor; [well_formed_entry|]). constructor.
Defined.

Lemma long_line_spec :
  ~ In Users.linefeed (String.list_ascii_of_string Machine.long_line)
  /\ (Users.MaxScanTokenSize
      <= N.of_nat (String.length Machine.long_line))%N.
Proof.
  unfold Machine.long_line. split.
  - rewrite String.list_ascii_of_string_of_list_ascii.
    intros H. apply repeat_spec in H. discriminate.
  - rewrite <- (String.string_of_list_ascii_of_string
                  (String.string_of_list_ascii _)) at 1.
    rewrite String.list_ascii_of_string_of_list_ascii.
    assert (forall l, String.length (String.string_of_list_ascii l) = length l)
      as Hlen by (induction l; cbn; congruence).
    rewrite Hlen, repeat_length, N2Nat.id. lia.
Defined.

(** X3.  The scan stops for good at a line of 65536 bytes or more, and
    [ReadEtcPasswd] does not look at the scanner's error: it returns the
    names of the lines before that one with a nil error, and nothing of
    what follows it. *)
Theorem ReadEtcPasswd_stops_at_long_line
  (host : Users.Host) (f : string) (file : Users.OpenFile)
  (entries : list (string * string)) (long rest : string) :
  Users.os_Open host f = inl file ->
  Users.contents file = Users.passwd_text entries +:+ (long +:+ rest) ->
  Forall Users.well_formed entries ->
  ~ In Users.linefeed (String.list_ascii_of_string long) ->
  (Users.MaxScanTokenSize <= N.of_nat (String.length long))%N ->
  Users.ReadEtcPasswd host f = Normal (inl (fst <$> entries)).
Proof.
  intros Hopen Htext Hwf Hlf Hlong.
  unfold Users.ReadEtcPasswd, Users.Scanner_Text.
  rewrite Hopen, Htext, scan_passwd_text by done.
  rewrite scan_too_long; [| done | done | lia].
  rewrite app_nil_r. by rewrite first_fields_entries.
Qed.

(** The entry [daemon] after the long line is lost, and no error is
    returned. *)
Lemma ReadEtcPasswd_stops_at_long_line_witness :
  Users.ReadEtcPasswd Machine.host_with_long_line "/etc/passwd"
  = Normal (inl ["root"]).
Proof.
  apply (ReadEtcPasswd_stops_at_long_line Machine.host_with_long_line "/etc/passwd"
           {| Users.contents :=
                Users.passwd_text [("root", "x:0:0:root:/root:/bin/bash")]
                +:+ Machine.long_line
                +:+ (String Users.linefeed "daemon:x:1:1::/:/bin/sh");
              Users.read_error := None |}
           [("root", "x:0:0:root:/root:/bin/bash")]
           Machine.long_line
           (String Users.linefeed "daemon:x:1:1::/:/bin/sh")).
  - reflexivity.
  - reflexivity.
  - repeat (constructor; [well_formed_entry|]). constructor.
  - exact (proj1 long_line_spec).
  - exact (proj2 long_line_spec).
Defined.

(** ** [UserList.Get] *)

Lemma lookup_all_spec host names :
  forall userlist ul,
    Users.lookup_all host names userlist = inl ul ->
    exists uis,
      Users.users ul = userlist ++ uis
      /\ Forall2 (fun name ui => Users.Get host name = inl ui) names uis.
Proof.
  induction names as [|name names IH]; intros userlist ul; cbn.
  - intros [= <-]. exists []. split; [by rewrite app_nil_r | constructor].
  - destruct (Users.user_Lookup host name) as [u|err] eqn:Hu; [|done].
    destruct (Users.user_LookupGroupId host (Users.User_Gid u)) as [g|err] eqn:Hg;
      [|done].
    intros Hrun. destruct (IH _ _ Hrun) as (uis & Husers & Hall).
    exists (Users.uinfo_of u g :: uis). split.
    + by rewrite Husers, <- app_assoc.
    + constructor; [|done]. unfold Users.Get. by rewrite Hu, Hg.
Qed.

Lemma Get_no_password host name ui :
  Users.Get host name = inl ui -> Users.UserPasswd ui = "".
Proof.
  unfold Users.Get.
  destruct (Users.user_Lookup host name) as [u|]; [|done].
  destruct (Users.user_LookupGroupId host (Users.User_Gid u)); [|done].
  by intros [= <-].
Qed.

Lemma lookup_all_first_failure host pre :
  forall bad post userlist err,
    Forall (fun name => exists ui, Users.Get host name = inl ui) pre ->
    Users.Get host bad = inr err ->
    Users.lookup_all host (pre ++ bad :: post) userlist = inr err.
Proof.
  induction pre as [|name pre IH]; intros bad post userlist err Hpre Hbad; cbn.
  - unfold Users.Get in Hbad.
    destruct (Users.user_Lookup host bad) as [u|e]; [|congruence].
    destruct (Users.user_LookupGroupId host (Users.User_Gid u)); congruence.
  - apply Forall_cons in Hpre as [[ui Hname] Hpre].
    unfold Users.Get in Hname.
    destruct (Users.user_Lookup host name) as [u|e]; [|done].
    destruct (Users.user_LookupGroupId host (Users.User_Gid u)); [|done].
    by apply IH.
Qed.

(** X4.  When [UserList.Get] succeeds, its list has one entry per name that
    [ReadEtcPasswd] returns for [/etc/passwd], in the same order, and each
    entry is what [Userinfo.Get] returns for that name; no entry carries a
    password. *)
Theorem UserList_Get_lists_every_name (host : Users.Host) (ul : Users.UserList) :
  Users.UserList_Get host = Normal (inl ul) ->
  exists names,
    Users.ReadEtcPasswd host Users.userDB = Normal (inl names)
    /\ Forall2 (fun name ui => Users.Get host name = inl ui) names (Users.users ul)
    /\ Forall (fun ui => Users.UserPasswd ui = "") (Users.users ul).
Proof.
  unfold Users.UserList_Get.
  destruct (Users.ReadEtcPasswd host Users.userDB) as [[names|err]|msg];
    [|done|done].
  intros [= Hrun]. destruct (lookup_all_spec _ _ _ _ Hrun) as (uis & Husers & Hall).
  cbn in Husers. subst uis. exists names. split; [done|]. split; [done|].
  clear Hrun. induction Hall as [|name ui names uis Hget _ IH]; [constructor|].
  constructor; [by eapply Get_no_password | done].
Qed.

(** The two accounts of the sample machine. *)
Lemma UserList_Get_lists_every_name_witness :
  exists ul,
    Users.UserList_Get Machine.host = Normal (inl ul)
    /\ Users.ReadEtcPasswd Machine.host Users.userDB = Normal (inl ["root"; "daemon"])
    /\ Forall2 (fun name ui => Users.Get Machine.host name = inl ui)
               ["root"; "daemon"] (Users.users ul)
    /\ Forall (fun ui => Users.UserPasswd ui = "") (Users.users ul).
Proof.
  eexists. split; [reflexivity|].
  destruct (UserList_Get_lists_every_name Machine.host _ eq_refl)
    as (names & Hread & Hall & Hpw).
  injection Hread as <-. split; [reflexivity|]. split; [exact Hall | exact Hpw].
Defined.

(** X5.  [UserList.Get] gives up at the first name it cannot resolve: when
    [Userinfo.Get] succeeds on the names before it and fails on it, the
    whole listing fails with that error and no list is returned, whatever
    follows. *)
Theorem UserList_Get_first_failure
  (host : Users.Host) (pre post : list string) (bad : string) (err : error) :
  Users.ReadEtcPasswd host Users.userDB = Normal (inl (pre ++ bad :: post)) ->
  Forall (fun name => exists ui, Users.Get host name = inl ui) pre ->
  Users.Get host bad = inr err ->
  Users.UserList_Get host = Normal (inr err).
Proof.
  intros Hread Hpre Hbad. unfold Users.UserList_Get. rewrite Hread.
  f_equal. by apply lookup_all_first_failure.
Qed.

(** A blank line in the password file gives the empty name, which no
    account has: the listing fails although [root] and [daemon] resolve. *)
Lemma UserList_Get_first_failure_witness :
  Users.ReadEtcPasswd Machine.host_with_blank_line Users.userDB
  = Normal (inl (["root"] ++ "" :: ["daemon"]))
  /\ Users.Get Machine.host_with_blank_line "" = inr (errorString "user: unknown user ")
  /\ Users.UserList_Get Machine.host_with_blank_line
     = Normal (inr (errorString "user: unknown user ")).
Proof.
  split; [reflexivity|]. split; [reflexivity|].
  apply (UserList_Get_first_failure Machine.host_with_blank_line
           ["root"] ["daemon"] "" (errorString "user: unknown user ")).
  - reflexivity.
  - constructor; [|constructor]. eexists. reflexivity.
  - reflexivity.
Defined.

(** ** The account operations *)

Local Ltac run_ops :=
  unfold Users.AddUser, Users.DeleteUser, Users.add, Users.delete,
    Users.readUsers, Users.creadential, Users.run,
    Users.ubind, Users.uret, Users.record, Users.set_Username, Users.get_recv.

(** X6.  [AddUser] leaves an existing account alone: when the user named in
    the JSON file resolves, it returns the error [User <name> already
    added.] without prompting, without running any command and without
    touching the receiver; it only logs the failure. *)
Theorem AddUser_existing_user
  (host : Users.Host) (f : string) (file : Users.OpenFile)
  (uinfo ui : Users.Userinfo) (st : Users.state) :
  Users.os_Open host f = inl file ->
  Users.json_Unmarshal host (Users.contents file) = (uinfo, None) ->
  Users.Get host (Users.Username uinfo) = inl ui ->
  Users.AddUser host f st
  = (inr (errors_New ("User " +:+ Users.Username uinfo +:+ " already added.")),
     {| Users.recv := Users.recv st;
        Users.events :=
          Users.events st
          ++ [Users.LogError ("Error in adding user " +:+ Users.Username uinfo)] |}).
Proof.
  intros Hopen Hjson Hget. run_ops. by rewrite Hopen, Hjson, Hget.
Qed.

(** The JSON file names [daemon], an account of the sample machine. *)
Lemma AddUser_existing_user_witness :
  Users.AddUser Machine.host "/tmp/daemon.json" Machine.start
  = (inr (errorString "User daemon already added."),
     {| Users.recv := Users.zero;
        Users.events := [Users.LogError "Error in adding user daemon"] |}).
Proof.
  exact (AddUser_existing_user Machine.host "/tmp/daemon.json"
           {| Users.contents := Machine.daemon_json; Users.read_error := None |}
           Machine.daemon
           {| Users.Uid := "1"; Users.Gid := "1"; Users.Username := "daemon";
              Users.Groupname := "daemon"; Users.Name := "daemon";
              Users.HomeDir := "/usr/sbin"; Users.UserPasswd := "" |}
           Machine.start eq_refl eq_refl eq_refl).
Defined.

(** X7.  [AddUser] runs at most one command, and it is [useradd].  When it
    returns a name, the JSON file was read and decoded, the name is the
    decoded [userName], no account resolved under it, and [useradd] ran
    once and succeeded, with the home directory, group and name of the
    file, the shell [/bin/bash], and as password the one of the file or,
    when the file has none, the typed one after trimming. *)
Theorem AddUser_runs_useradd_once
  (host : Users.Host) (f : string) (st : Users.state) :
  exists new,
    Users.events (snd (Users.AddUser host f st)) = Users.events st ++ new
    /\ (Users.commands new = []
        \/ exists args, Users.commands new = [(Users.userAdd, args)])
    /\ forall name,
         fst (Users.AddUser host f st) = inl name ->
         exists file uinfo passwd,
           Users.os_Open host f = inl file
           /\ Users.json_Unmarshal host (Users.contents file) = (uinfo, None)
           /\ name = Users.Username uinfo
           /\ (exists err, Users.Get host name = inr err)
           /\ (passwd = Users.UserPasswd uinfo /\ passwd <> ""
               \/ Users.UserPasswd uinfo = ""
                  /\ exists typed,
                       Users.terminal_ReadPassword host = (typed, None)
                       /\ passwd = Users.strings_TrimSpace host typed)
           /\ Users.commands new
              = [(Users.userAdd,
                  ["-m"; "-d"; Users.HomeDir uinfo; "-G"; Users.Groupname uinfo;
                   "-s"; Users.userShell; Users.Username uinfo; "-p"; passwd])]
           /\ snd (Users.cmd_Output host Users.userAdd
                     ["-m"; "-d"; Users.HomeDir uinfo; "-G"; Users.Groupname uinfo;
                      "-s"; Users.userShell; Users.Username uinfo; "-p"; passwd])
              = None.
Proof.
  run_ops.
  destruct (Users.os_Open host f) as [file|err] eqn:Hopen.
  2: { eexists. cbn. split; [reflexivity|]. split; [by left | done]. }
  destruct (Users.json_Unmarshal host (Users.contents file))
    as [uinfo [err|]] eqn:Hjson.
  { eexists. cbn. split; [reflexivity|]. split; [by left | done]. }
  destruct (Users.Get host (Users.Username uinfo)) as [ui|gerr] eqn:Hget.
  { eexists. cbn. split; [reflexivity|]. split; [by left | done]. }
  destruct (String.eqb_spec (Users.UserPasswd uinfo) "") as [Hpw|Hpw].
  - destruct (Users.terminal_ReadPassword host) as [typed [err|]] eqn:Htyped.
    { cbn. eexists. split; [by rewrite <- !app_assoc|].
      split; [by left | done]. }
    cbn.
    destruct (Users.cmd_Output host Users.userAdd _) as [out [err|]] eqn:Hcmd.
    + cbn. eexists. split; [by rewrite <- !app_assoc|].
      split; [right; by eexists | done].
    + cbn. eexists. split; [by rewrite <- !app_assoc|].
      split; [right; by eexists|].
      intros name [= <-].
      exists file, uinfo, (Users.strings_TrimSpace host typed).
      split; [done|]. split; [done|]. split; [done|].
      split; [by exists gerr|]. split; [right; split; [done | by exists typed]|].
      split; [done|]. by rewrite Hcmd.
  - cbn.
    destruct (Users.cmd_Output host Users.userAdd _) as [out [err|]] eqn:Hcmd.
    + cbn. eexists. split; [by rewrite <- !app_assoc|].
      split; [right; by eexists | done].
    + cbn. eexists. split; [reflexivity|].
      split; [right; by eexists|].
      intros name [= <-].
      exists file, uinfo, (Users.UserPasswd uinfo).
      split; [done|]. split; [done|]. split; [done|].
      split; [by exists gerr|]. split; [by left|].
      split; [done|]. by rewrite Hcmd.
Qed.

(** The JSON file names [alice], who has no account and no password in the
    file; the password is typed. *)
Lemma AddUser_runs_useradd_once_witness :
  fst (Users.AddUser Machine.host "/tmp/alice.json" Machine.start) = inl "alice"
  /\ Users.commands
       (Users.events (snd (Users.AddUser Machine.host "/tmp/alice.json" Machine.start)))
     = [("useradd", ["-m"; "-d"; "/home/alice"; "-G"; "staff"; "-s"; "/bin/bash";
                     "alice"; "-p"; "s3cret"])].
Proof.
  split; [reflexivity|].
  destruct (AddUser_runs_useradd_once Machine.host "/tmp/alice.json" Machine.start)
    as (new & Hev & _ & Hok).
  destruct (Hok "alice" eq_refl)
    as (file & uinfo & passwd & Hopen & Hjson & _ & _ & Hpw & Hcmd & _).
  injection Hopen as <-. cbn in Hjson. injection Hjson as <-.
  destruct Hpw as [[-> Hne]|[_ (typed & Htyped & ->)]]; [done|].
  injection Htyped as <-. rewrite Hev. exact Hcmd.
Defined.

(** X8.  [DeleteUser] runs nothing for a name that does not resolve: it
    returns [User <name> not found.] in place of the lookup error and
    leaves everything as it was.  For a name that resolves it runs exactly
    [userdel -r] on the login name the lookup returned, and returns that
    name exactly when the command succeeds, the command's error
    otherwise. *)
Theorem DeleteUser_runs_userdel_for_known_user
  (host : Users.Host) (userName : string) (st : Users.state) :
  match Users.Get host userName with
  | inr _ =>
      Users.DeleteUser host userName st
      = (inr (errors_New ("User " +:+ userName +:+ " not found.")), st)
  | inl ui =>
      exists new,
        snd (Users.DeleteUser host userName st)
        = {| Users.recv := Users.recv st; Users.events := Users.events st ++ new |}
        /\ Users.commands new = [(Users.userDel, ["-r"; Users.Username ui])]
        /\ match snd (Users.cmd_Output host Users.userDel ["-r"; Users.Username ui]) with
           | None => fst (Users.DeleteUser host userName st) = inl (Users.Username ui)
           | Some err => fst (Users.DeleteUser host userName st) = inr err
           end
  end.
Proof.
  run_ops.
  destruct (Users.Get host userName) as [ui|err]; [|done].
  destruct (Users.cmd_Output host Users.userDel ["-r"; Users.Username ui])
    as [out [err|]]; cbn.
  - eexists. split; [by rewrite <- app_assoc|]. by split.
  - eexists. split; [reflexivity|]. by split.
Qed.


